(** * NovaLink stream receivers: session lifecycle and message decoding

    A shallow embedding of the two receiver classes of the NovaLink plugin,
    [UAudioReceiver] (AudioReceiver.cpp) and [UEmotionReceiver]
    (EmotionReceiver.cpp), together with the properties their specification
    states about them.

    The receivers are written against the engine: its WebSockets module, its
    JSON reader, its strings and arrays.  The engine is not part of the
    plugin, so what the plugin calls but does not define is taken as an
    interface ([UnrealEngine]); the socket objects, whose state the session
    code reads and writes through [IWebSocket], are modelled as records in a
    store addressed by handles. *)

From stdpp Require Import gmap strings list fin_maps list_numbers.
From Stdlib Require Import ZArith QArith_base Ascii Lia.

Local Open Scope Z_scope.

(** ** The engine interface *)

(** [EJson], the tag carried by every [FJsonValue]. *)
Inductive EJson :=
| EJson_None | EJson_Null | EJson_String | EJson_Number
| EJson_Boolean | EJson_Array | EJson_Object.

(** What the receivers use from the engine and do not define themselves.
    [Deserialize] is [FJsonSerializer::Deserialize]: it returns its success
    flag and the object pointer it filled in, an object being the pairs of
    its [Values] map in iteration order, each value a shared pointer that may
    be null.  A non-null [const void*] is represented by the bytes readable
    at its successive offsets.  [TArray_Append buf p n] is
    [TArray<uint8>::Append(p, n)] on the array [buf]: the array after the
    call, or [None] when the call does not return.  The interface fixes it
    for the counts the array type admits and leaves a negative count open. *)
Class UnrealEngine := {
  double : Type;
  float : Type;
  static_cast_float : double → float;
  IsNumeric : string → bool;
  Atof : string → float;
  FJsonValue : Type;
  TryGetNumber : FJsonValue → option double;
  JsonType : FJsonValue → EJson;
  AsString : FJsonValue → string;
  Deserialize : string → bool * option (list (string * option FJsonValue));
  TArray_Append : list Byte.byte → (Z → Byte.byte) → Z → option (list Byte.byte);
  TArray_Append_count : ∀ buf p n,
    0 ≤ n → TArray_Append buf p n = Some (buf ++ (p <$> seqZ 0 n))
}.


(** ** Data model *)

(** The two receiver classes. *)
Inductive Receiver := UAudioReceiver | UEmotionReceiver.

Definition DefaultAudioUrl : string := "ws://localhost:5000/ws/audio".
Definition DefaultEmotionUrl : string := "ws://localhost:5000/ws/emotion".

Definition DefaultUrl (K : Receiver) : string :=
  match K with
  | UAudioReceiver => DefaultAudioUrl
  | UEmotionReceiver => DefaultEmotionUrl
  end.

(** The class name as it appears in the log lines and the close reason. *)
Definition ClassName (K : Receiver) : string :=
  match K with
  | UAudioReceiver => "AudioReceiver"
  | UEmotionReceiver => "EmotionReceiver"
  end.

(** The multicast delegates of an [IWebSocket]. *)
Inductive Delegate :=
| OnConnected | OnConnectionError | OnClosed | OnRawMessage | OnMessage.

(** The member functions a receiver binds to them. *)
Inductive MemFn :=
| FnHandleConnected | FnHandleConnectionError | FnHandleClosed
| FnHandleBinaryMessage | FnHandleMessage.

Global Instance Delegate_eq_dec : EqDecision Delegate.
Proof. solve_decision. Defined.
Global Instance MemFn_eq_dec : EqDecision MemFn.
Proof. solve_decision. Defined.

(** Objects and sockets are identified by handles. *)
Definition UObject := nat.
Definition Handle := nat.

(** One entry of a delegate's invocation list: [AddUObject(obj, fn)]. *)
Record Binding := {
  bound_delegate : Delegate;
  bound_object : UObject;
  bound_fn : MemFn
}.

(** Requests a socket has been given. *)
Inductive Request :=
| Connect
| Close (Code : Z) (Reason : string).

(** The state of a socket object as the receivers can observe or change it:
    the address it was created for, the invocation lists of its delegates,
    what [IsConnected()] answers, and the requests issued so far. *)
Record IWebSocket := {
  ws_Url : string;
  ws_Bindings : list Binding;
  ws_IsConnected : bool;
  ws_Requests : list Request
}.

Inductive Verbosity := Warning | Error.

(** The member variables of a receiver. *)
Record Session := {
  WebSocketUrl : string;
  bIsConnected : bool;
  WebSocket : option Handle
}.

Section Engine.
Context `{UE : UnrealEngine}.

(** What a receiver makes observable: log lines and delegate broadcasts. *)
Inductive Event :=
| UE_LOG (V : Verbosity) (Text : string)
| OnConnectionStateChanged (bConnected : bool)
| OnAudioChunkReceived (AudioChunk : list Byte.byte)
| OnEmotionUpdate (EmotionValues : gmap string float).

(** The receiver object [this] with its members, the sockets of the
    WebSockets module, and the events emitted so far. *)
Record World := {
  this : UObject;
  self : Session;
  sockets : gmap Handle IWebSocket;
  output : list Event
}.

(** ** A state monad over [World] *)

Definition M (A : Type) : Type := World → A * World.

Definition ret {A} (a : A) : M A := λ w, (a, w).
Definition bind {A B} (m : M A) (k : A → M B) : M B :=
  λ w, let (a, w') := m w in k a w'.
Definition exec {A} (m : M A) (w : World) : World := (m w).2.
Definition eval {A} (m : M A) (w : World) : A := (m w).1.

End Engine.

Declare Scope prog_scope.
Delimit Scope prog_scope with prog.
Notation "x <- c1 ;; c2" := (bind c1 (λ x, c2))
  (at level 100, c1 at next level, right associativity) : prog_scope.
Notation "c1 ;; c2" := (bind c1 (λ _, c2))
  (at level 100, right associativity) : prog_scope.

Section Receivers.
Context `{UE : UnrealEngine}.
Local Open Scope prog_scope.

Definition get_self : M Session := λ w, (self w, w).
Definition get_this : M UObject := λ w, (this w, w).

Definition put_self (s : Session) : M unit :=
  λ w, (tt, {| this := this w; self := s; sockets := sockets w; output := output w |}).

Definition emit (e : Event) : M unit :=
  λ w, (tt, {| this := this w; self := self w; sockets := sockets w;
               output := output w ++ [e] |}).

Definition set_bIsConnected (b : bool) : M unit :=
  s <- get_self;;
  put_self {| WebSocketUrl := WebSocketUrl s; bIsConnected := b; WebSocket := WebSocket s |}.

Definition set_WebSocket (p : option Handle) : M unit :=
  s <- get_self;;
  put_self {| WebSocketUrl := WebSocketUrl s; bIsConnected := bIsConnected s; WebSocket := p |}.

(** *** Socket operations of the engine *)

Definition update_socket (h : Handle) (f : IWebSocket → IWebSocket) : M unit :=
  λ w, (tt, {| this := this w; self := self w;
               sockets := alter f h (sockets w); output := output w |}).

(** [FWebSocketsModule::CreateWebSocket]: a new socket object, not connected,
    nothing bound, nothing requested. *)
Definition CreateWebSocket (Url : string) : M Handle :=
  λ w, let h := fresh (dom (sockets w)) in
       (h, {| this := this w; self := self w;
              sockets := <[h := {| ws_Url := Url; ws_Bindings := [];
                                   ws_IsConnected := false; ws_Requests := [] |}]> (sockets w);
              output := output w |}).

(** [WebSocket->On...().AddUObject(obj, fn)] *)
Definition AddUObject (h : Handle) (d : Delegate) (obj : UObject) (fn : MemFn) : M unit :=
  update_socket h (λ s,
    {| ws_Url := ws_Url s;
       ws_Bindings := ws_Bindings s ++
         [{| bound_delegate := d; bound_object := obj; bound_fn := fn |}];
       ws_IsConnected := ws_IsConnected s; ws_Requests := ws_Requests s |}).

Definition bound_to (d : Delegate) (obj : UObject) (b : Binding) : bool :=
  bool_decide (bound_delegate b = d) && bool_decide (bound_object b = obj).

(** [WebSocket->On...().RemoveAll(obj)] *)
Definition RemoveAll (h : Handle) (d : Delegate) (obj : UObject) : M unit :=
  update_socket h (λ s,
    {| ws_Url := ws_Url s;
       ws_Bindings := List.filter (λ b, negb (bound_to d obj b)) (ws_Bindings s);
       ws_IsConnected := ws_IsConnected s; ws_Requests := ws_Requests s |}).

Definition request (h : Handle) (r : Request) : M unit :=
  update_socket h (λ s,
    {| ws_Url := ws_Url s; ws_Bindings := ws_Bindings s;
       ws_IsConnected := ws_IsConnected s; ws_Requests := ws_Requests s ++ [r] |}).

(** [WebSocket->IsConnected()] *)
Definition Socket_IsConnected (h : Handle) : M bool :=
  λ w, (match sockets w !! h with Some s => ws_IsConnected s | None => false end, w).

(** ** The session, shared by both receivers *)

Section Session.
Variable K : Receiver.

(** The delegate that delivers payloads, and the handler bound to it. *)
Definition MessageDelegate : Delegate :=
  match K with UAudioReceiver => OnRawMessage | UEmotionReceiver => OnMessage end.
Definition MessageHandler : MemFn :=
  match K with UAudioReceiver => FnHandleBinaryMessage | UEmotionReceiver => FnHandleMessage end.

(** [UAudioReceiver::UAudioReceiver] (AudioReceiver.cpp:12) and
    [UEmotionReceiver::UEmotionReceiver] (EmotionReceiver.cpp:13): the
    default address, not connected; the socket pointer starts out null. *)
Definition Constructor : Session :=
  {| WebSocketUrl := DefaultUrl K; bIsConnected := false; WebSocket := None |}.

(** [ResetWebSocket] (AudioReceiver.cpp:104, EmotionReceiver.cpp:104) *)
Definition ResetWebSocket : M unit :=
  s <- get_self;;
  (match WebSocket s with
   | Some _ => set_WebSocket None
   | None => ret tt
   end);;
  set_bIsConnected false.

(** [StopConnection] (AudioReceiver.cpp:46, EmotionReceiver.cpp:47) *)
Definition StopConnection : M unit :=
  s <- get_self;;
  obj <- get_this;;
  (match WebSocket s with
   | Some h =>
       RemoveAll h OnConnected obj;;
       RemoveAll h OnConnectionError obj;;
       RemoveAll h OnClosed obj;;
       RemoveAll h MessageDelegate obj;;
       c <- Socket_IsConnected h;;
       if c then request h (Close 1000 (ClassName K +:+ " Stop")) else ret tt
   | None => ret tt
   end);;
  ResetWebSocket.

(** [FString::IsEmpty] *)
Definition IsEmpty (s : string) : bool := bool_decide (s = ""%string).

(** [StartConnection] (AudioReceiver.cpp:18, EmotionReceiver.cpp:19).  The
    lookup of the WebSockets module, loaded on demand, has no effect on the
    state modelled here; [CreateWebSocket] stands for the call on it. *)
Definition StartConnection (OptionalOverrideUrl : string) : M unit :=
  s <- get_self;;
  obj <- get_this;;
  let TargetUrl :=
    if IsEmpty OptionalOverrideUrl then WebSocketUrl s else OptionalOverrideUrl in
  if IsEmpty TargetUrl then
    emit (UE_LOG Warning ("NovaLink " +:+ ClassName K +:+ " requires a websocket URL."))
  else
    StopConnection;;
    h <- CreateWebSocket TargetUrl;;
    set_WebSocket (Some h);;
    AddUObject h OnConnected obj FnHandleConnected;;
    AddUObject h OnConnectionError obj FnHandleConnectionError;;
    AddUObject h OnClosed obj FnHandleClosed;;
    AddUObject h MessageDelegate obj MessageHandler;;
    request h Connect.

(** [IsConnected] (AudioReceiver.cpp:64, EmotionReceiver.cpp:65) *)
Definition IsConnected : M bool :=
  s <- get_self;; ret (bIsConnected s).

(** [HandleConnected] (AudioReceiver.cpp:69, EmotionReceiver.cpp:70) *)
Definition HandleConnected : M unit :=
  set_bIsConnected true;;
  emit (OnConnectionStateChanged true).

(** [HandleConnectionError] (AudioReceiver.cpp:75, EmotionReceiver.cpp:76) *)
Definition HandleConnectionError (Error_ : string) : M unit :=
  emit (UE_LOG Error ("NovaLink " +:+ ClassName K +:+ " connection error: " +:+ Error_));;
  set_bIsConnected false;;
  emit (OnConnectionStateChanged false);;
  ResetWebSocket.

(** [HandleClosed] (AudioReceiver.cpp:83, EmotionReceiver.cpp:84) *)
Definition HandleClosed (StatusCode : Z) (Reason : string) (bWasClean : bool) : M unit :=
  set_bIsConnected false;;
  emit (OnConnectionStateChanged false);;
  ResetWebSocket.

End Session.

(** ** Binary frame forwarder (UAudioReceiver) *)

(** [static_cast<int32>] of a [SIZE_T]: the value modulo 2^32, read as a
    signed 32-bit integer. *)
Definition static_cast_int32 (x : Z) : Z := (x + 2 ^ 31) `mod` 2 ^ 32 - 2 ^ 31.

(** [UAudioReceiver::HandleBinaryMessage] (AudioReceiver.cpp:90).  [Size] and
    [BytesRemaining] are [SIZE_T] values; [Buffer] starts out empty.  When the
    engine does not return from [Append], nothing after the call runs and so
    nothing is broadcast. *)
Definition HandleBinaryMessage
    (Data : option (Z → Byte.byte)) (Size BytesRemaining : Z) : M unit :=
  match Data with
  | None => ret tt
  | Some ByteData =>
      if Size =? 0 then ret tt
      else
        match TArray_Append [] ByteData (static_cast_int32 Size) with
        | Some Buffer => emit (OnAudioChunkReceived Buffer)
        | None => ret tt
        end
  end.

(** ** Emotion message decoder (UEmotionReceiver) *)

(** The body of the loop over [JsonObject->Values]
    (EmotionReceiver.cpp:123-143); [TMap::Add] replaces the value of a key
    that is already present. *)
Definition ParsePair (OutValues : gmap string float)
    (Pair : string * option FJsonValue) : gmap string float :=
  match Pair.2 with
  | None => OutValues
  | Some Value =>
      match TryGetNumber Value with
      | Some NumericValue => <[Pair.1 := static_cast_float NumericValue]> OutValues
      | None =>
          match JsonType Value with
          | EJson_String =>
              let RawString := AsString Value in
              if IsNumeric RawString then <[Pair.1 := Atof RawString]> OutValues
              else OutValues
          | _ => OutValues
          end
      end
  end.

(** [UEmotionReceiver::TryParseEmotionMessage] (EmotionReceiver.cpp:113): the
    result and the final content of the out-parameter, which is left alone
    when the message does not read as an object and reset otherwise. *)
Definition TryParseEmotionMessage (Message : string) (OutValues : gmap string float)
    : bool * gmap string float :=
  match Deserialize Message with
  | (true, Some JsonObject) =>
      let OutValues' := foldl ParsePair ∅ JsonObject in
      (bool_decide (0 < size OutValues')%nat, OutValues')
  | _ => (false, OutValues)
  end.

(** [UEmotionReceiver::HandleMessage] (EmotionReceiver.cpp:91) *)
Definition HandleMessage (Message : string) : M unit :=
  let ParsedValues : gmap string float := ∅ in
  let (ok, ParsedValues') := TryParseEmotionMessage Message ParsedValues in
  if ok then emit (OnEmotionUpdate ParsedValues')
  else emit (UE_LOG Warning
               ("NovaLink EmotionReceiver received invalid JSON: " +:+ Message)).

(** ** Destruction *)

(** Neither class declares a destructor or overrides a finalisation hook of
    its base class, and nothing in the plugin calls [StopConnection] on a
    receiver that goes away: destroying a receiver runs the destructors of its
    members, of which only the [TSharedPtr<IWebSocket>] touches the state
    modelled here, by dropping its reference to the socket. *)
Definition Destructor : M unit := set_WebSocket None.

(** ** The transport side *)

(** What a socket can signal, with the arguments of the delegate. *)
Inductive Signal :=
| SigConnected
| SigConnectionError (Error_ : string)
| SigClosed (StatusCode : Z) (Reason : string) (bWasClean : bool)
| SigRawMessage (Data : option (Z → Byte.byte)) (Size BytesRemaining : Z)
| SigMessage (Message : string).

Definition SignalDelegate (sg : Signal) : Delegate :=
  match sg with
  | SigConnected => OnConnected
  | SigConnectionError _ => OnConnectionError
  | SigClosed _ _ _ => OnClosed
  | SigRawMessage _ _ _ => OnRawMessage
  | SigMessage _ => OnMessage
  end.

(** Calling a bound member function with the arguments of a signal. *)
Definition Invoke (K : Receiver) (fn : MemFn) (sg : Signal) : M unit :=
  match fn, sg with
  | FnHandleConnected, SigConnected => HandleConnected
  | FnHandleConnectionError, SigConnectionError e => HandleConnectionError K e
  | FnHandleClosed, SigClosed c r b => HandleClosed c r b
  | FnHandleBinaryMessage, SigRawMessage d n r => HandleBinaryMessage d n r
  | FnHandleMessage, SigMessage m => HandleMessage m
  | _, _ => ret tt
  end.

Fixpoint InvokeAll (K : Receiver) (bs : list Binding) (sg : Signal) : M unit :=
  match bs with
  | [] => ret tt
  | b :: bs' => Invoke K (bound_fn b) sg;; InvokeAll K bs' sg
  end.

Definition SignalConnected (sg : Signal) (c : bool) : bool :=
  match sg with
  | SigConnected => true
  | SigConnectionError _ | SigClosed _ _ _ => false
  | _ => c
  end.

(** The socket [h] signals [sg]: it updates what its [IsConnected()] answers
    and broadcasts on the delegate of the signal, which calls the functions
    bound for the receiver in the order they were added, from the invocation
    list as it was when the broadcast began. *)
Definition Fire (K : Receiver) (h : Handle) (sg : Signal) : M unit :=
  obj <- get_this;;
  λ w, match sockets w !! h with
       | None => (tt, w)
       | Some ws =>
           (update_socket h (λ s,
              {| ws_Url := ws_Url s; ws_Bindings := ws_Bindings s;
                 ws_IsConnected := SignalConnected sg (ws_IsConnected s);
                 ws_Requests := ws_Requests s |});;
            InvokeAll K (List.filter (bound_to (SignalDelegate sg) obj) (ws_Bindings ws)) sg) w
       end.

(** The three connection callbacks, as a sequence delivered to a session. *)
Inductive Callback :=
| CbConnected
| CbConnectionError (Error_ : string)
| CbClosed (StatusCode : Z) (Reason : string) (bWasClean : bool).

Definition RunCallback (K : Receiver) (cb : Callback) : M unit :=
  match cb with
  | CbConnected => HandleConnected
  | CbConnectionError e => HandleConnectionError K e
  | CbClosed c r b => HandleClosed c r b
  end.

Fixpoint RunCallbacks (K : Receiver) (cbs : list Callback) : M unit :=
  match cbs with
  | [] => ret tt
  | cb :: cbs' => RunCallback K cb;; RunCallbacks K cbs'
  end.

(** The value a callback passes to [OnConnectionStateChanged]. *)
Definition CallbackValue (cb : Callback) : bool :=
  match cb with CbConnected => true | _ => false end.

(** What the host does to a session and what the transport signals to it. *)
Inductive Step :=
| CallStartConnection (OptionalOverrideUrl : string)
| CallStopConnection
| Signals (h : Handle) (sg : Signal).

Definition RunStep (K : Receiver) (st : Step) : M unit :=
  match st with
  | CallStartConnection u => StartConnection K u
  | CallStopConnection => StopConnection K
  | Signals h sg => Fire K h sg
  end.

Fixpoint Run (K : Receiver) (sts : list Step) : M unit :=
  match sts with
  | [] => ret tt
  | st :: sts' => RunStep K st;; Run K sts'
  end.

(** ** Reading the output *)

Definition ConnectionNotifications (out : list Event) : list bool :=
  omap (λ e, match e with OnConnectionStateChanged b => Some b | _ => None end) out.

Definition ChunkNotifications (out : list Event) : list (list Byte.byte) :=
  omap (λ e, match e with OnAudioChunkReceived c => Some c | _ => None end) out.


Definition Warnings (out : list Event) : list string :=
  omap (λ e, match e with UE_LOG Warning t => Some t | _ => None end) out.

(** No two neighbours of the list are equal. *)
Fixpoint Alternates (l : list bool) : bool :=
  match l with
  | a :: (b :: _) as t => negb (Bool.eqb a b) && Alternates t
  | _ => true
  end.

(** A freshly constructed receiver in an engine without sockets. *)
Definition NewObject (K : Receiver) (obj : UObject) : World :=
  {| this := obj; self := Constructor K; sockets := ∅; output := [] |}.


End Receivers.

(** ** The messages of the decoder's examples *)

(** A string between double quotes. *)
Definition quoted (s : string) : string :=
  String "034"%char (s +:+ String "034"%char EmptyString).

Definition MessageJoyAngerLabel : string :=
  "{" +:+ quoted "joy" +:+ ": 0.8, " +:+ quoted "anger" +:+ ": " +:+ quoted "0.1"
      +:+ ", " +:+ quoted "label" +:+ ": " +:+ quoted "happy" +:+ "}".
Definition MessageLabel : string :=
  "{" +:+ quoted "label" +:+ ": " +:+ quoted "happy" +:+ "}".
Definition MessageNotJson : string := "not json".

(** ** Closed forms used in the statements *)

Section ClosedForms.
Context `{UE : UnrealEngine}.

(** The address [StartConnection] resolves. *)
Definition TargetUrl (OptionalOverrideUrl : string) (s : Session) : string :=
  if IsEmpty OptionalOverrideUrl then WebSocketUrl s else OptionalOverrideUrl.

(** The delegates a receiver of class [K] subscribes to. *)
Definition Subscribed (K : Receiver) : list Delegate :=
  [OnConnected; OnConnectionError; OnClosed; MessageDelegate K].

(** A socket after the four [RemoveAll(obj)] calls of [StopConnection]. *)
Definition UnboundSocket (K : Receiver) (obj : UObject) (s : IWebSocket) : IWebSocket :=
  {| ws_Url := ws_Url s;
     ws_Bindings :=
       List.filter (λ b, negb (bound_to (MessageDelegate K) obj b))
         (List.filter (λ b, negb (bound_to OnClosed obj b))
           (List.filter (λ b, negb (bound_to OnConnectionError obj b))
             (List.filter (λ b, negb (bound_to OnConnected obj b)) (ws_Bindings s))));
     ws_IsConnected := ws_IsConnected s;
     ws_Requests := ws_Requests s |}.

(** A socket after [StopConnection]: unbound, and asked to close with code
    1000 when it reported itself connected. *)
Definition StoppedSocket (K : Receiver) (obj : UObject) (s : IWebSocket) : IWebSocket :=
  let s' := UnboundSocket K obj s in
  if ws_IsConnected s then
    {| ws_Url := ws_Url s'; ws_Bindings := ws_Bindings s';
       ws_IsConnected := ws_IsConnected s';
       ws_Requests := ws_Requests s' ++ [Close 1000 (ClassName K +:+ " Stop")] |}
  else s'.

Definition StoppedSession (s : Session) : Session :=
  {| WebSocketUrl := WebSocketUrl s; bIsConnected := false; WebSocket := None |}.

(** The socket [StartConnection] leaves behind: the four bindings of the
    receiver and one connect request. *)
Definition StartedSocket (K : Receiver) (obj : UObject) (Url : string) : IWebSocket :=
  {| ws_Url := Url;
     ws_Bindings :=
       [{| bound_delegate := OnConnected; bound_object := obj;
           bound_fn := FnHandleConnected |};
        {| bound_delegate := OnConnectionError; bound_object := obj;
           bound_fn := FnHandleConnectionError |};
        {| bound_delegate := OnClosed; bound_object := obj;
           bound_fn := FnHandleClosed |};
        {| bound_delegate := MessageDelegate K; bound_object := obj;
           bound_fn := MessageHandler K |}];
     ws_IsConnected := false;
     ws_Requests := [Connect] |}.

(** The float a JSON value contributes to the mapping, if any: the decision
    taken in the body of the decoder's loop. *)
Definition UsableValue (Value : FJsonValue) : option float :=
  match TryGetNumber Value with
  | Some NumericValue => Some (static_cast_float NumericValue)
  | None =>
      match JsonType Value with
      | EJson_String =>
          if IsNumeric (AsString Value) then Some (Atof (AsString Value)) else None
      | _ => None
      end
  end.



(** The warning of [HandleMessage]. *)
Definition InvalidJson (Message : string) : Event :=
  UE_LOG Warning ("NovaLink EmotionReceiver received invalid JSON: " +:+ Message).

(** The input bytes of a raw message: the [Size] bytes at [ByteData]. *)
Definition InputBytes (ByteData : Z → Byte.byte) (Size : Z) : list Byte.byte :=
  ByteData <$> seqZ 0 Size.


(** The four callbacks of a receiver [obj], written out: connected, error,
    closed, and the message callback of its class. *)
Definition FourCallbacks (K : Receiver) (obj : UObject) : list Binding :=
  [{| bound_delegate := OnConnected; bound_object := obj;
      bound_fn := FnHandleConnected |};
   {| bound_delegate := OnConnectionError; bound_object := obj;
      bound_fn := FnHandleConnectionError |};
   {| bound_delegate := OnClosed; bound_object := obj;
      bound_fn := FnHandleClosed |};
   match K with
   | UAudioReceiver =>
       {| bound_delegate := OnRawMessage; bound_object := obj;
          bound_fn := FnHandleBinaryMessage |}
   | UEmotionReceiver =>
       {| bound_delegate := OnMessage; bound_object := obj;
          bound_fn := FnHandleMessage |}
   end].

(** The world with one more event in its output. *)
Definition Emitting (w : World) (e : Event) : World :=
  {| this := this w; self := self w; sockets := sockets w; output := output w ++ [e] |}.

End ClosedForms.

(** ** A reference engine

    An instance of the engine interface on which the receivers can be run:
    numbers are exact rationals, a JSON value is one of the six kinds of
    [EJson] and answers [TryGetNumber] as the value classes of the engine do,
    [IsNumeric] accepts an optional sign followed by digits with at most one
    dot, the reader reads JSON text (without [\u] escapes), and the array
    rejects a negative count. *)
Module Reference.

#[local] Set Warnings "-register-all".

Inductive Value :=
| Null
| Boolean (b : bool)
| Number (q : Q)
| String_ (s : string)
| Array (elements : list Value)
| Object (members : list (string * Value)).

Definition is_digit (c : Ascii.ascii) : bool :=
  let n := Ascii.nat_of_ascii c in (48 <=? n)%nat && (n <=? 57)%nat.

Fixpoint digits_and_dot (s : string) (bHasDot : bool) : bool :=
  match s with
  | EmptyString => true
  | String c s' =>
      if Ascii.eqb c "."%char then (if bHasDot then false else digits_and_dot s' true)
      else if is_digit c then digits_and_dot s' bHasDot
      else false
  end.

Definition ref_IsNumeric (s : string) : bool :=
  match s with
  | EmptyString => false
  | String c s' =>
      if Ascii.eqb c "-"%char || Ascii.eqb c "+"%char then digits_and_dot s' false
      else digits_and_dot s false
  end.

(** Decimal digits with a dot read as a fraction: numerator and denominator. *)
Fixpoint decimal (s : string) (num den : Z) (bAfterDot : bool) : Z * Z :=
  match s with
  | EmptyString => (num, den)
  | String c s' =>
      if Ascii.eqb c "."%char then decimal s' num den true
      else if is_digit c then
        decimal s' (10 * num + (Z.of_nat (Ascii.nat_of_ascii c) - 48))
                (if bAfterDot then 10 * den else den) bAfterDot
      else (num, den)
  end.

Definition ref_Atof (s : string) : Q :=
  let mk (neg : bool) (nd : Z * Z) :=
    Qmake (if neg then - nd.1 else nd.1) (Z.to_pos nd.2) in
  match s with
  | String c s' =>
      if Ascii.eqb c "-"%char then mk true (decimal s' 0 1 false)
      else if Ascii.eqb c "+"%char then mk false (decimal s' 0 1 false)
      else mk false (decimal s 0 1 false)
  | EmptyString => 0%Q
  end.

(** [TryGetNumber] of the value classes: [FJsonValueNumber] gives its value,
    [FJsonValueBoolean] 1 or 0, [FJsonValueString] the number its content
    reads as when that content is numeric; the others give none. *)
Definition ref_TryGetNumber (v : Value) : option Q :=
  match v with
  | Number q => Some q
  | Boolean b => Some (if b then 1%Q else 0%Q)
  | String_ s => if ref_IsNumeric s then Some (ref_Atof s) else None
  | _ => None
  end.

Definition ref_JsonType (v : Value) : EJson :=
  match v with
  | Null => EJson_Null
  | Boolean _ => EJson_Boolean
  | Number _ => EJson_Number
  | String_ _ => EJson_String
  | Array _ => EJson_Array
  | Object _ => EJson_Object
  end.

Definition ref_AsString (v : Value) : string :=
  match v with String_ s => s | _ => ""%string end.

(** *** The JSON reader *)

Definition digit_value (c : Ascii.ascii) : Z := Z.of_nat (Ascii.nat_of_ascii c) - 48.

(** *** Numbers *)

(** Where the reader is in a JSON number. *)
Inductive NumberState :=
| NumStart | NumSign | NumZero | NumInt | NumDot | NumFrac | NumE | NumESign | NumExp.

(** What has been read of it: sign, digits as a fraction, exponent. *)
Record NumberParts := {
  num_neg : bool; num_num : Z; num_den : Z; num_eneg : bool; num_exp : Z
}.

Definition number_digit (digit : Z) (st : NumberState) (p : NumberParts)
    : option (NumberState * NumberParts) :=
  let int := {| num_neg := num_neg p; num_num := 10 * num_num p + digit;
                num_den := num_den p; num_eneg := num_eneg p; num_exp := num_exp p |} in
  let frac := {| num_neg := num_neg p; num_num := 10 * num_num p + digit;
                 num_den := 10 * num_den p; num_eneg := num_eneg p;
                 num_exp := num_exp p |} in
  let exp := {| num_neg := num_neg p; num_num := num_num p; num_den := num_den p;
                num_eneg := num_eneg p; num_exp := 10 * num_exp p + digit |} in
  match st with
  | NumStart | NumSign => Some (if digit =? 0 then NumZero else NumInt, int)
  | NumZero => None
  | NumInt => Some (NumInt, int)
  | NumDot | NumFrac => Some (NumFrac, frac)
  | NumE | NumESign | NumExp => Some (NumExp, exp)
  end.

Definition number_step (c : Ascii.ascii) (st : NumberState) (p : NumberParts)
    : option (NumberState * NumberParts) :=
  if is_digit c then number_digit (digit_value c) st p
  else if Ascii.eqb c "-"%char then
    match st with
    | NumStart =>
        Some (NumSign, {| num_neg := true; num_num := num_num p; num_den := num_den p;
                          num_eneg := num_eneg p; num_exp := num_exp p |})
    | NumE =>
        Some (NumESign, {| num_neg := num_neg p; num_num := num_num p;
                           num_den := num_den p; num_eneg := true; num_exp := num_exp p |})
    | _ => None
    end
  else if Ascii.eqb c "+"%char then
    match st with NumE => Some (NumESign, p) | _ => None end
  else if Ascii.eqb c "."%char then
    match st with NumZero | NumInt => Some (NumDot, p) | _ => None end
  else if Ascii.eqb c "e"%char || Ascii.eqb c "E"%char then
    match st with NumZero | NumInt | NumFrac => Some (NumE, p) | _ => None end
  else None.

Fixpoint number_run (s : string) (st : NumberState) (p : NumberParts)
    : option (NumberState * NumberParts) :=
  match s with
  | EmptyString => Some (st, p)
  | String c s' =>
      match number_step c st p with
      | Some (st', p') => number_run s' st' p'
      | None => None
      end
  end.

Definition number_value (p : NumberParts) : Q :=
  let n := if num_neg p then - num_num p else num_num p in
  if num_eneg p then Qmake n (Z.to_pos (num_den p * 10 ^ num_exp p))
  else Qmake (n * 10 ^ num_exp p) (Z.to_pos (num_den p)).

(** A JSON number: an optional minus, an integer part without leading zeros,
    an optional fraction, an optional exponent. *)
Definition read_number (s : string) : option Q :=
  match number_run s NumStart
          {| num_neg := false; num_num := 0; num_den := 1;
             num_eneg := false; num_exp := 0 |} with
  | Some (NumZero, p) | Some (NumInt, p) | Some (NumFrac, p) | Some (NumExp, p) =>
      Some (number_value p)
  | _ => None
  end.

(** *** Tokens *)

Inductive Token :=
| TLBrace | TRBrace | TLBracket | TRBracket | TColon | TComma
| TString (s : string)
| TLiteral (s : string).

Inductive LexState :=
| Between
| InString (acc : string) (escaped : bool)
| InLiteral (acc : string).

Definition is_space (c : Ascii.ascii) : bool :=
  let n := Ascii.nat_of_ascii c in
  (n =? 32)%nat || (n =? 9)%nat || (n =? 10)%nat || (n =? 13)%nat.

Definition punctuation (c : Ascii.ascii) : option Token :=
  if Ascii.eqb c "{"%char then Some TLBrace
  else if Ascii.eqb c "}"%char then Some TRBrace
  else if Ascii.eqb c "["%char then Some TLBracket
  else if Ascii.eqb c "]"%char then Some TRBracket
  else if Ascii.eqb c ":"%char then Some TColon
  else if Ascii.eqb c ","%char then Some TComma
  else None.

Definition snoc (s : string) (c : Ascii.ascii) : string := s +:+ String c EmptyString.

(** The character an escape stands for; [\u] escapes are not read. *)
Definition escape (c : Ascii.ascii) : option Ascii.ascii :=
  if Ascii.eqb c "034"%char then Some "034"%char
  else if Ascii.eqb c "\"%char then Some "\"%char
  else if Ascii.eqb c "/"%char then Some "/"%char
  else if Ascii.eqb c "n"%char then Some "010"%char
  else if Ascii.eqb c "t"%char then Some "009"%char
  else if Ascii.eqb c "r"%char then Some "013"%char
  else if Ascii.eqb c "b"%char then Some "008"%char
  else if Ascii.eqb c "f"%char then Some "012"%char
  else None.

Fixpoint lex (s : string) (st : LexState) (out : list Token) : option (list Token) :=
  match s with
  | EmptyString =>
      match st with
      | Between => Some out
      | InString _ _ => None
      | InLiteral acc => Some (out ++ [TLiteral acc])
      end
  | String c s' =>
      match st with
      | Between =>
          if is_space c then lex s' Between out
          else if Ascii.eqb c "034"%char then lex s' (InString EmptyString false) out
          else match punctuation c with
               | Some t => lex s' Between (out ++ [t])
               | None => lex s' (InLiteral (String c EmptyString)) out
               end
      | InString acc true =>
          match escape c with
          | Some c' => lex s' (InString (snoc acc c') false) out
          | None => None
          end
      | InString acc false =>
          if Ascii.eqb c "034"%char then lex s' Between (out ++ [TString acc])
          else if Ascii.eqb c "\"%char then lex s' (InString acc true) out
          else lex s' (InString (snoc acc c) false) out
      | InLiteral acc =>
          if is_space c then lex s' Between (out ++ [TLiteral acc])
          else if Ascii.eqb c "034"%char then None
          else match punctuation c with
               | Some t => lex s' Between (out ++ [TLiteral acc; t])
               | None => lex s' (InLiteral (snoc acc c)) out
               end
      end
  end.

Definition literal (s : string) : option Value :=
  if String.eqb s "true" then Some (Boolean true)
  else if String.eqb s "false" then Some (Boolean false)
  else if String.eqb s "null" then Some Null
  else Number <$> read_number s.

(** *** Values *)

Fixpoint read_value (fuel : nat) (ts : list Token) : option (Value * list Token) :=
  match fuel with
  | O => None
  | S fuel' =>
      match ts with
      | TString s :: rest => Some (String_ s, rest)
      | TLiteral l :: rest => v ← literal l; Some (v, rest)
      | TLBracket :: TRBracket :: rest => Some (Array [], rest)
      | TLBracket :: rest => read_elements fuel' rest []
      | TLBrace :: TRBrace :: rest => Some (Object [], rest)
      | TLBrace :: rest => read_members fuel' rest []
      | _ => None
      end
  end
with read_elements (fuel : nat) (ts : list Token) (acc : list Value)
    : option (Value * list Token) :=
  match fuel with
  | O => None
  | S fuel' =>
      match read_value fuel' ts with
      | Some (v, TComma :: rest) => read_elements fuel' rest (acc ++ [v])
      | Some (v, TRBracket :: rest) => Some (Array (acc ++ [v]), rest)
      | _ => None
      end
  end
with read_members (fuel : nat) (ts : list Token) (acc : list (string * Value))
    : option (Value * list Token) :=
  match fuel with
  | O => None
  | S fuel' =>
      match ts with
      | TString k :: TColon :: rest =>
          match read_value fuel' rest with
          | Some (v, TComma :: rest') => read_members fuel' rest' (acc ++ [(k, v)])
          | Some (v, TRBrace :: rest') => Some (Object (acc ++ [(k, v)]), rest')
          | _ => None
          end
      | _ => None
      end
  end.

(** [TMap::Add]: the value of a key that is present is replaced in place. *)
Fixpoint map_add {A} (k : string) (v : A) (m : list (string * A)) : list (string * A) :=
  match m with
  | [] => [(k, v)]
  | (k', v') :: m' => if String.eqb k k' then (k, v) :: m' else (k', v') :: map_add k v m'
  end.

(** [FJsonSerializer::Deserialize] into an object pointer: the text must be
    one JSON value, and that value an object; its members are added to the
    [Values] map one after the other. *)
Definition ref_Deserialize (Message : string) : bool * option (list (string * option Value)) :=
  match lex Message Between [] with
  | Some ts =>
      match read_value (S (length ts)) ts with
      | Some (Object members, []) =>
          (true, Some (foldl (λ m '(k, v), map_add k (Some v) m) [] members))
      | _ => (false, None)
      end
  | None => (false, None)
  end.

(** [TArray<uint8>::Append]: a negative count fails the array's check and
    the call does not return. *)
Definition ref_Append (buf : list Byte.byte) (p : Z → Byte.byte) (n : Z)
    : option (list Byte.byte) :=
  if n <? 0 then None else Some (buf ++ (p <$> seqZ 0 n)).

#[export] Instance Engine : UnrealEngine.
Proof.
  refine {|
    double := Q;
    float := Q;
    static_cast_float := id;
    IsNumeric := ref_IsNumeric;
    Atof := ref_Atof;
    FJsonValue := Value;
    TryGetNumber := ref_TryGetNumber;
    JsonType := ref_JsonType;
    AsString := ref_AsString;
    Deserialize := ref_Deserialize;
    TArray_Append := ref_Append;
    TArray_Append_count := _
  |}.
  intros buf p n Hn. unfold ref_Append.
  destruct (Z.ltb_spec n 0); [lia|reflexivity].
Defined.


(** A buffer whose byte at every offset is [x2a]. *)
Definition Stars : Z → Byte.byte := λ _, Byte.x2a.

(** A receiver that was started and whose socket has reported the
    connection. *)
Definition ConnectedWorld (K : Receiver) : World :=
  exec (Run K [CallStartConnection ""; Signals 0%nat SigConnected]) (NewObject K 1%nat).

(** A receiver whose configured address was set to the empty string. *)
Definition Unconfigured (K : Receiver) : World :=
  {| this := 1%nat;
     self := {| WebSocketUrl := ""; bIsConnected := false; WebSocket := None |};
     sockets := ∅; output := [] |}.

(** A buffer that holds [a] at its first two offsets and [b] behind them. *)
Definition TwoThenOne : Z → Byte.byte := λ i, if i <? 2 then Byte.x61 else Byte.x62.

End Reference.

(** ** The function library (NovaLinkFunctionLibrary.cpp) *)

Section FunctionLibrary.
Context `{UE : UnrealEngine}.

(** [NewObject<T>(Outer)] as a library call sees it: the engine gives the
    new object its identity [obj] and runs the constructor; the sockets of
    the WebSockets module and the output so far are as they were. *)
Definition NewObjectIn (K : Receiver) (obj : UObject)
    (socks : gmap Handle IWebSocket) (out : list Event) : World :=
  {| this := obj; self := Constructor K; sockets := socks; output := out |}.

(** [UNovaLinkFunctionLibrary::CreateAudioReceiver]
    (NovaLinkFunctionLibrary.cpp:7); [None] is the null pointer. *)
Definition CreateAudioReceiver (WorldContextObject : option UObject) (obj : UObject)
    (socks : gmap Handle IWebSocket) (out : list Event) : option World :=
  match WorldContextObject with
  | None => None
  | Some _ => Some (NewObjectIn UAudioReceiver obj socks out)
  end.

(** [UNovaLinkFunctionLibrary::CreateEmotionReceiver]
    (NovaLinkFunctionLibrary.cpp:17) *)
Definition CreateEmotionReceiver (WorldContextObject : option UObject) (obj : UObject)
    (socks : gmap Handle IWebSocket) (out : list Event) : option World :=
  match WorldContextObject with
  | None => None
  | Some _ => Some (NewObjectIn UEmotionReceiver obj socks out)
  end.

(** [UNovaLinkFunctionLibrary::ConnectAudio] (NovaLinkFunctionLibrary.cpp:27):
    the result is [OutReceiver], with the world as that receiver leaves it. *)
Definition ConnectAudio (WorldContextObject : option UObject) (obj : UObject)
    (Url : string) (socks : gmap Handle IWebSocket) (out : list Event) : option World :=
  match CreateAudioReceiver WorldContextObject obj socks out with
  | Some OutReceiver => Some (exec (StartConnection UAudioReceiver Url) OutReceiver)
  | None => None
  end.

(** [UNovaLinkFunctionLibrary::ConnectEmotion] (NovaLinkFunctionLibrary.cpp:36) *)
Definition ConnectEmotion (WorldContextObject : option UObject) (obj : UObject)
    (Url : string) (socks : gmap Handle IWebSocket) (out : list Event) : option World :=
  match CreateEmotionReceiver WorldContextObject obj socks out with
  | Some OutReceiver => Some (exec (StartConnection UEmotionReceiver Url) OutReceiver)
  | None => None
  end.

(** The address a [Connect...] node uses when its [Url] pin is left alone
    (NovaLinkFunctionLibrary.h:25 and 29). *)
Definition ConnectDefaultUrl (K : Receiver) : string :=
  match K with
  | UAudioReceiver => "ws://localhost:5000/ws/audio"
  | UEmotionReceiver => "ws://localhost:5000/ws/emotion"
  end.

(** The [Connect...] function of a receiver class. *)
Definition ConnectOf (K : Receiver) :=
  match K with
  | UAudioReceiver => ConnectAudio
  | UEmotionReceiver => ConnectEmotion
  end.

End FunctionLibrary.

(** ** Sequences and invariants used in the statements *)

Section Lifecycle.
Context `{UE : UnrealEngine}.

(** The member function [StartConnection] binds to the delegate of a
    signal. *)
Definition HandlerOf (sg : Signal) : MemFn :=
  match sg with
  | SigConnected => FnHandleConnected
  | SigConnectionError _ => FnHandleConnectionError
  | SigClosed _ _ _ => FnHandleClosed
  | SigRawMessage _ _ _ => FnHandleBinaryMessage
  | SigMessage _ => FnHandleMessage
  end.

(** The world once the socket [h] has taken note of its own signal, before
    it broadcasts. *)
Definition Noted (h : Handle) (sg : Signal) (w : World) : World :=
  exec (update_socket h (λ s,
    {| ws_Url := ws_Url s; ws_Bindings := ws_Bindings s;
       ws_IsConnected := SignalConnected sg (ws_IsConnected s);
       ws_Requests := ws_Requests s |})) w.

(** The signals that carry a payload. *)
Definition IsPayload (sg : Signal) : bool :=
  match sg with
  | SigRawMessage _ _ _ | SigMessage _ => true
  | _ => false
  end.

(** Raw-message callbacks delivered one after the other. *)
Fixpoint Forward (frames : list (option (Z → Byte.byte) * Z * Z)) : M unit :=
  match frames with
  | [] => ret tt
  | (Data, Size, BytesRemaining) :: frames' =>
      bind (HandleBinaryMessage Data Size BytesRemaining) (λ _, Forward frames')
  end.

(** A message at [ByteData] delivered in fragments of the given sizes: each
    fragment points behind the one before it and announces what remains. *)
Fixpoint Fragments (ByteData : Z → Byte.byte) (sizes : list Z)
    : list (option (Z → Byte.byte) * Z * Z) :=
  match sizes with
  | [] => []
  | n :: sizes' =>
      (Some ByteData, n, foldr Z.add 0 sizes')
        :: Fragments (λ i, ByteData (n + i)) sizes'
  end.

(** The requests a receiver of class [K] gives to a socket, in order: one
    connect request, then at most one request to close. *)
Definition RequestsInOrder (K : Receiver) (rs : list Request) : Prop :=
  rs = [Connect] ∨ rs = [Connect; Close 1000 (ClassName K +:+ " Stop")].

(** What holds of the sockets while a receiver runs: every socket was created
    for an address that is not empty and has its requests in order, and the
    socket the session points to exists, carries exactly the four bindings of
    the receiver and has not been asked to close. *)
Definition Kept (K : Receiver) (obj : UObject) (w : World) : Prop :=
  this w = obj ∧
  (∀ h s, sockets w !! h = Some s →
     ws_Url s ≠ ""%string ∧ RequestsInOrder K (ws_Requests s)) ∧
  (∀ h, WebSocket (self w) = Some h →
     ∃ s, sockets w !! h = Some s ∧
          ws_Bindings s = ws_Bindings (StartedSocket K obj "") ∧
          ws_Requests s = [Connect]).

(** The connected flag does not run ahead of the listeners: when it is set,
    the last connection-state notification was [true]. *)
Definition FlagNotified (w : World) : Prop :=
  bIsConnected (self w) = true →
  last (ConnectionNotifications (output w)) = Some true.

End Lifecycle.

(** * Properties *)

Section Properties.
Context `{UE : UnrealEngine}.

(** ** The session *)

Lemma StopConnection_exec K w :
  exec (StopConnection K) w =
  {| this := this w;
     self := StoppedSession (self w);
     sockets := match WebSocket (self w) with
                | Some h => alter (StoppedSocket K (this w)) h (sockets w)
                | None => sockets w
                end;
     output := output w |}.
Proof.
  destruct w as [obj [url c [h|]] socks out]; [|reflexivity].
  unfold exec, StopConnection, bind; cbn.
  rewrite !lookup_alter_eq.
  destruct (socks !! h) as [s|] eqn:Hs; cbn.
  - assert (Hf : ∀ x, socks !! h = Some x → x = s) by (intros x Hx; congruence).
    destruct (ws_IsConnected s) eqn:Hc; cbn; unfold StoppedSession; cbn; f_equal;
      rewrite !alter_alter_eq; apply alter_ext; intros x Hx; rewrite (Hf x Hx);
      unfold StoppedSocket, UnboundSocket; cbn; rewrite Hc; reflexivity.
  - unfold StoppedSession; cbn; f_equal.
    rewrite !alter_alter_eq. rewrite !alter_id' by done. done.
Qed.

Lemma StopConnection_dom K w :
  dom (sockets (exec (StopConnection K) w)) = dom (sockets w).
Proof.
  rewrite StopConnection_exec; cbn.
  destruct (WebSocket (self w)); [|done].
  apply set_eq; intros i. rewrite !elem_of_dom, lookup_alter.
  case_decide; subst; [|done]. by rewrite fmap_is_Some.
Qed.

Lemma StartConnection_exec K u w :
  IsEmpty (TargetUrl u (self w)) = false →
  exec (StartConnection K u) w =
  let w1 := exec (StopConnection K) w in
  let h := fresh (dom (sockets w1)) in
  {| this := this w;
     self := {| WebSocketUrl := WebSocketUrl (self w); bIsConnected := false;
                WebSocket := Some h |};
     sockets := <[h := StartedSocket K (this w) (TargetUrl u (self w))]> (sockets w1);
     output := output w |}.
Proof.
  intros Hne. unfold exec at 1, StartConnection, bind at 1 2; cbn.
  unfold TargetUrl in Hne |- *. rewrite Hne.
  unfold bind at 1. fold (exec (StopConnection K) w).
  pose proof (StopConnection_exec K w) as E.
  unfold exec in E |- *. destruct (StopConnection K w) as [[] w1]; cbn in E |- *.
  subst w1; cbn. f_equal.
  rewrite !alter_insert_eq. reflexivity.
Qed.

Lemma filter_none {A} (f : A → bool) (l : list A) :
  (∀ x, In x l → f x = false) → List.filter f l = [].
Proof.
  induction l as [|a l IH]; cbn; intros H; [done|].
  rewrite (H a) by auto. apply IH. auto.
Qed.

Lemma UnboundSocket_silent K obj s d :
  d ∈ Subscribed K →
  List.filter (bound_to d obj) (ws_Bindings (UnboundSocket K obj s)) = [].
Proof.
  intros Hd. apply filter_none. intros b Hb. cbn in Hb.
  repeat (apply List.filter_In in Hb; destruct Hb as [Hb ?]).
  unfold Subscribed in Hd. rewrite !elem_of_cons in Hd.
  destruct Hd as [->|[->|[->|[->|Hd]]]];
    try (by apply negb_true_iff). by apply elem_of_nil in Hd.
Qed.

Lemma StoppedSocket_bindings K obj s :
  ws_Bindings (StoppedSocket K obj s) = ws_Bindings (UnboundSocket K obj s).
Proof. unfold StoppedSocket. by destruct (ws_IsConnected s). Qed.

Lemma Fire_missing K h sg w :
  sockets w !! h = None → exec (Fire K h sg) w = w.
Proof. intros H. unfold exec, Fire, bind; cbn. by rewrite H. Qed.

Lemma Fire_unbound K h sg w ws :
  sockets w !! h = Some ws →
  List.filter (bound_to (SignalDelegate sg) (this w)) (ws_Bindings ws) = [] →
  self (exec (Fire K h sg) w) = self w ∧ output (exec (Fire K h sg) w) = output w.
Proof.
  intros H Hf. unfold exec, Fire, bind; cbn. rewrite H, Hf. by cbn.
Qed.

(** After [StopConnection], what the socket the session held signals on a
    delegate the receiver had subscribed to reaches no handler. *)
Lemma Fire_after_StopConnection K w h sg :
  WebSocket (self w) = Some h →
  SignalDelegate sg ∈ Subscribed K →
  let w1 := exec (StopConnection K) w in
  self (exec (Fire K h sg) w1) = self w1 ∧
  output (exec (Fire K h sg) w1) = output w.
Proof.
  intros Hh Hd w1.
  assert (Hs : sockets w1 !! h = StoppedSocket K (this w) <$> sockets w !! h).
  { subst w1. rewrite StopConnection_exec; cbn. rewrite Hh. apply lookup_alter_eq. }
  assert (Ho : output w1 = output w) by (subst w1; by rewrite StopConnection_exec).
  assert (Ht : this w1 = this w) by (subst w1; by rewrite StopConnection_exec).
  destruct (sockets w !! h) as [s|]; cbn in Hs.
  - rewrite <- Ho. apply (Fire_unbound K h sg w1 _ Hs).
    rewrite Ht, StoppedSocket_bindings. by apply UnboundSocket_silent.
  - by rewrite (Fire_missing K h sg w1 Hs).
Qed.

Lemma ConnectionNotifications_app (l1 l2 : list Event) :
  ConnectionNotifications (l1 ++ l2) =
  ConnectionNotifications l1 ++ ConnectionNotifications l2.
Proof. apply omap_app. Qed.

Lemma HandleClosed_exec StatusCode Reason bWasClean w :
  exec (HandleClosed StatusCode Reason bWasClean) w =
  {| this := this w; self := StoppedSession (self w); sockets := sockets w;
     output := output w ++ [OnConnectionStateChanged false] |}.
Proof. by destruct w as [obj [url c [h|]] socks out]. Qed.

Lemma HandleConnectionError_exec K Error_ w :
  exec (HandleConnectionError K Error_) w =
  {| this := this w; self := StoppedSession (self w); sockets := sockets w;
     output := output w ++
       [UE_LOG Error ("NovaLink " +:+ ClassName K +:+ " connection error: " +:+ Error_);
        OnConnectionStateChanged false] |}.
Proof.
  destruct w as [obj [url c [h|]] socks out]; unfold exec; cbn;
    by rewrite <- app_assoc.
Qed.

Lemma HandleConnected_exec w :
  exec HandleConnected w =
  {| this := this w;
     self := {| WebSocketUrl := WebSocketUrl (self w); bIsConnected := true;
                WebSocket := WebSocket (self w) |};
     sockets := sockets w;
     output := output w ++ [OnConnectionStateChanged true] |}.
Proof. by destruct w as [obj [url c o] socks out]. Qed.

Lemma StartConnection_empty K u w :
  IsEmpty (TargetUrl u (self w)) = true →
  exec (StartConnection K u) w =
  Emitting w (UE_LOG Warning ("NovaLink " +:+ ClassName K +:+ " requires a websocket URL.")).
Proof.
  intros He. unfold exec, StartConnection, bind; cbn.
  unfold TargetUrl in He. by rewrite He.
Qed.

(** C4. [StopConnection] is idempotent: after any call the socket pointer is
    released and [IsConnected()] answers false; a second call in a row
    changes nothing; on a session that is already stopped the call changes
    nothing at all; and a freshly constructed session is not connected. *)
Theorem StopConnection_idempotent K w :
  WebSocket (self (exec (StopConnection K) w)) = None ∧
  eval IsConnected (exec (StopConnection K) w) = false ∧
  exec (StopConnection K) (exec (StopConnection K) w) = exec (StopConnection K) w ∧
  (WebSocket (self w) = None → bIsConnected (self w) = false →
   exec (StopConnection K) w = w) ∧
  (∀ obj socks out,
     eval IsConnected
       {| this := obj; self := Constructor K; sockets := socks; output := out |} = false).
Proof.
  repeat split.
  - by rewrite StopConnection_exec.
  - by rewrite StopConnection_exec.
  - by rewrite !StopConnection_exec.
  - intros Hn Hc. rewrite StopConnection_exec.
    destruct w as [obj [url c o] socks out]; cbn in *. by subst.
Qed.

(** C5. With an empty configured address and an empty override,
    [StartConnection] only logs a warning: the members of the session, the
    connected flag among them, and every socket are as before, so neither
    the teardown of [StopConnection] nor the creation of a socket took
    place. *)
Theorem StartConnection_without_address K w :
  WebSocketUrl (self w) = ""%string →
  let w' := exec (StartConnection K "") w in
  self w' = self w ∧
  sockets w' = sockets w ∧
  eval IsConnected w' = eval IsConnected w ∧
  output w' = output w ++
    [UE_LOG Warning ("NovaLink " +:+ ClassName K +:+ " requires a websocket URL.")].
Proof.
  intros Hu w'. subst w'.
  rewrite StartConnection_empty; [done|].
  unfold TargetUrl; cbn. by rewrite Hu.
Qed.

(** C6. The closed callback changes the session and notifies the listeners
    exactly as the error callback does: both leave the session not
    connected with its socket pointer released and broadcast one [false];
    they differ only in the error line the latter logs.  The status code,
    the reason and the clean flag do not influence the outcome. *)
Theorem HandleClosed_like_HandleConnectionError
    K StatusCode Reason bWasClean Error_ w :
  let wc := exec (HandleClosed StatusCode Reason bWasClean) w in
  let we := exec (HandleConnectionError K Error_) w in
  self wc = self we ∧
  sockets wc = sockets we ∧
  ConnectionNotifications (output wc) = ConnectionNotifications (output we) ∧
  bIsConnected (self wc) = false ∧
  WebSocket (self wc) = None ∧
  output wc = output w ++ [OnConnectionStateChanged false] ∧
  ConnectionNotifications (output we) = ConnectionNotifications (output w) ++ [false] ∧
  (∀ StatusCode' Reason' bWasClean',
     exec (HandleClosed StatusCode' Reason' bWasClean') w = wc).
Proof.
  cbv zeta. rewrite HandleClosed_exec, HandleConnectionError_exec.
  cbn [self sockets output]. rewrite !ConnectionNotifications_app.
  repeat split. intros. by rewrite HandleClosed_exec.
Qed.

(** C9. [StopConnection] emits nothing, so in particular no
    connection-state notification, although it clears the connected flag;
    and because it unbinds the receiver before it asks the socket to close,
    whatever that socket signals afterwards on a delegate the receiver had
    subscribed to produces no event either.  Connection-state notifications
    come from the callbacks only: [true] from the connected callback,
    [false] from the error and the closed callback, none from
    [StartConnection]. *)
Theorem StopConnection_emits_nothing K w :
  output (exec (StopConnection K) w) = output w ∧
  bIsConnected (self (exec (StopConnection K) w)) = false ∧
  (∀ h sg, WebSocket (self w) = Some h → SignalDelegate sg ∈ Subscribed K →
     output (exec (Fire K h sg) (exec (StopConnection K) w)) = output w) ∧
  (∀ u, ConnectionNotifications (output (exec (StartConnection K u) w)) =
        ConnectionNotifications (output w)) ∧
  ConnectionNotifications (output (exec HandleConnected w)) =
    ConnectionNotifications (output w) ++ [true] ∧
  (∀ e, ConnectionNotifications (output (exec (HandleConnectionError K e) w)) =
        ConnectionNotifications (output w) ++ [false]) ∧
  (∀ c r b, ConnectionNotifications (output (exec (HandleClosed c r b) w)) =
            ConnectionNotifications (output w) ++ [false]).
Proof.
  split_and!.
  - by rewrite StopConnection_exec.
  - by rewrite StopConnection_exec.
  - intros h sg Hh Hd. by apply Fire_after_StopConnection.
  - intros u. destruct (IsEmpty (TargetUrl u (self w))) eqn:He.
    + rewrite StartConnection_empty by done. cbn [Emitting output].
      rewrite ConnectionNotifications_app. cbn. by rewrite app_nil_r.
    + by rewrite StartConnection_exec.
  - rewrite HandleConnected_exec; cbn [output].
    by rewrite ConnectionNotifications_app.
  - intros e. rewrite HandleConnectionError_exec; cbn [output].
    by rewrite ConnectionNotifications_app.
  - intros c r b. rewrite HandleClosed_exec; cbn [output].
    by rewrite ConnectionNotifications_app.
Qed.

Lemma IsEmpty_false (u : string) : u ≠ ""%string → IsEmpty u = false.
Proof. intros H. unfold IsEmpty. by apply bool_decide_eq_false. Qed.


Lemma StartedSocket_FourCallbacks K obj Url :
  ws_Bindings (StartedSocket K obj Url) = FourCallbacks K obj.
Proof. by destruct K. Qed.


Lemma RunCallback_notifies K cb w :
  ConnectionNotifications (output (exec (RunCallback K cb) w)) =
  ConnectionNotifications (output w) ++ [CallbackValue cb].
Proof.
  destruct cb; cbn [RunCallback CallbackValue].
  - rewrite HandleConnected_exec; cbn [output].
    by rewrite ConnectionNotifications_app.
  - rewrite HandleConnectionError_exec; cbn [output].
    by rewrite ConnectionNotifications_app.
  - rewrite HandleClosed_exec; cbn [output].
    by rewrite ConnectionNotifications_app.
Qed.

Lemma RunCallbacks_cons K cb cbs w :
  exec (RunCallbacks K (cb :: cbs)) w = exec (RunCallbacks K cbs) (exec (RunCallback K cb) w).
Proof.
  unfold exec; cbn [RunCallbacks]. unfold bind.
  by destruct (RunCallback K cb w).
Qed.

(** C7, as the code has it.  Every connection callback delivers exactly one
    notification, [true] for the connected callback and [false] for the
    error and the closed callback, whatever the state of the session: the
    notifications of a sequence of callbacks are the values of the callbacks
    in order.  So two neighbouring notifications differ exactly where two
    neighbouring callbacks are of different kinds. *)
Theorem callbacks_notify_in_order K cbs w :
  ConnectionNotifications (output (exec (RunCallbacks K cbs) w)) =
    ConnectionNotifications (output w) ++ (CallbackValue <$> cbs) ∧
  (ConnectionNotifications (output w) = [] →
   Alternates (ConnectionNotifications (output (exec (RunCallbacks K cbs) w))) =
   Alternates (CallbackValue <$> cbs)).
Proof.
  assert (H : ∀ cbs w,
    ConnectionNotifications (output (exec (RunCallbacks K cbs) w)) =
    ConnectionNotifications (output w) ++ (CallbackValue <$> cbs)).
  { clear. intros cbs. induction cbs as [|cb cbs IH]; intros w.
    - by rewrite app_nil_r.
    - rewrite RunCallbacks_cons, IH, RunCallback_notifies.
      by rewrite <- app_assoc. }
  split; [apply H|]. intros Hnil. by rewrite H, Hnil.
Qed.

Lemma Destructor_exec w :
  exec Destructor w =
  {| this := this w;
     self := {| WebSocketUrl := WebSocketUrl (self w);
                bIsConnected := bIsConnected (self w); WebSocket := None |};
     sockets := sockets w; output := output w |}.
Proof. by destruct w as [obj [url c o] socks out]. Qed.

(** C8, as the code has it.  Destroying a receiver drops its socket pointer
    and does nothing else: every socket, the one it held among them, is left
    as it was, still bound to the receiver and with no close request, and
    nothing is emitted.  The teardown of [StopConnection] is a different one:
    on a socket that reports itself connected it removes the bindings and
    requests the close. *)
Theorem Destructor_releases_only K w :
  let wd := exec Destructor w in
  WebSocket (self wd) = None ∧
  bIsConnected (self wd) = bIsConnected (self w) ∧
  sockets wd = sockets w ∧
  output wd = output w ∧
  (∀ h s, WebSocket (self w) = Some h → sockets w !! h = Some s →
     ws_IsConnected s = true →
     sockets wd !! h = Some s ∧
     sockets (exec (StopConnection K) w) !! h = Some (StoppedSocket K (this w) s) ∧
     ws_Requests (StoppedSocket K (this w) s) =
       ws_Requests s ++ [Close 1000 (ClassName K +:+ " Stop")]).
Proof.
  cbv zeta. rewrite Destructor_exec; cbn [self sockets output WebSocket bIsConnected].
  split_and!; try done.
  intros h s Hh Hs Hc. split_and!; [done| |].
  - rewrite StopConnection_exec; cbn. rewrite Hh, lookup_alter_eq, Hs. done.
  - unfold StoppedSocket. by rewrite Hc.
Qed.

(** ** The binary frame forwarder and the emotion decoder *)

Lemma static_cast_int32_small Size :
  (0 ≤ Size ≤ 2 ^ 31 - 1)%Z → static_cast_int32 Size = Size.
Proof. intros H. unfold static_cast_int32. rewrite Z.mod_small; lia. Qed.


Lemma length_InputBytes ByteData Size :
  (0 ≤ Size)%Z → Z.of_nat (length (InputBytes ByteData Size)) = Size.
Proof. intros H. unfold InputBytes. rewrite length_fmap, length_seqZ. lia. Qed.

Lemma HandleBinaryMessage_exec ByteData Size BytesRemaining w :
  Size ≠ 0%Z →
  exec (HandleBinaryMessage (Some ByteData) Size BytesRemaining) w =
  match TArray_Append [] ByteData (static_cast_int32 Size) with
  | Some Buffer => Emitting w (OnAudioChunkReceived Buffer)
  | None => w
  end.
Proof.
  intros H. unfold exec, HandleBinaryMessage.
  destruct (Z.eqb_spec Size 0); [done|].
  by destruct (TArray_Append [] ByteData (static_cast_int32 Size)).
Qed.


Lemma ParsePair_insert m k ov :
  ParsePair m (k, ov) =
  match ov ≫= UsableValue with Some f => <[k := f]> m | None => m end.
Proof.
  unfold ParsePair, UsableValue; cbn. destruct ov as [v|]; cbn; [|done].
  destruct (TryGetNumber v); [done|].
  destruct (JsonType v); try done. by destruct (IsNumeric (AsString v)).
Qed.


Lemma HandleMessage_exec Message w :
  exec (HandleMessage Message) w =
  match Deserialize Message with
  | (true, Some Values) =>
      let m := foldl ParsePair ∅ Values in
      if bool_decide (0 < size m)%nat
      then Emitting w (OnEmotionUpdate m) else Emitting w (InvalidJson Message)
  | _ => Emitting w (InvalidJson Message)
  end.
Proof.
  unfold exec, HandleMessage, TryParseEmotionMessage.
  destruct (Deserialize Message) as [[] [Values|]]; try done.
  cbn. by destruct (bool_decide _).
Qed.




(** C2, as the code has it.  A null pointer or a size of zero is ignored:
    nothing is emitted and nothing changes.  Otherwise, for a size that fits
    a signed 32-bit integer, exactly one chunk is broadcast, a buffer built
    from empty that holds the [Size] input bytes in order.  The bytes that
    remain of the frame play no part. *)
Theorem HandleBinaryMessage_forwards Data Size BytesRemaining w :
  let w' := exec (HandleBinaryMessage Data Size BytesRemaining) w in
  (Data = None ∨ Size = 0 → w' = w) ∧
  (∀ ByteData, Data = Some ByteData → 0 < Size ≤ 2 ^ 31 - 1 →
     w' = Emitting w (OnAudioChunkReceived (InputBytes ByteData Size)) ∧
     Z.of_nat (length (InputBytes ByteData Size)) = Size) ∧
  (∀ BytesRemaining', exec (HandleBinaryMessage Data Size BytesRemaining') w = w').
Proof.
  cbv zeta. split_and!.
  - intros [->| ->]; [by destruct w|]. destruct Data; by destruct w.
  - intros ByteData -> Hs. split.
    + rewrite HandleBinaryMessage_exec by lia.
      rewrite static_cast_int32_small by lia.
      rewrite TArray_Append_count by lia. done.
    + apply length_InputBytes. lia.
  - done.
Qed.




(** *** The socket of a session is alive in every state that can be reached *)





Lemma InvokeAll_cons K b bs sg w :
  exec (InvokeAll K (b :: bs) sg) w =
  exec (InvokeAll K bs sg) (exec (Invoke K (bound_fn b) sg) w).
Proof.
  unfold exec; cbn [InvokeAll]. unfold bind.
  by destruct (Invoke K (bound_fn b) sg w).
Qed.



Lemma Run_cons K st sts w :
  exec (Run K (st :: sts)) w = exec (Run K sts) (exec (RunStep K st) w).
Proof.
  unfold exec; cbn [Run]. unfold bind. by destruct (RunStep K st w).
Qed.


End Properties.
(** * The properties on the reference engine *)

Section OnReference.
Import Reference.
Local Open Scope Z_scope.




Lemma HandleBinaryMessage_forwards_witness :
  let w := NewObject UAudioReceiver 1%nat in
  exec (HandleBinaryMessage (Some Stars) 0 0) w = w ∧
  exec (HandleBinaryMessage (Some Stars) 3 5) w =
    Emitting w (OnAudioChunkReceived [Byte.x2a; Byte.x2a; Byte.x2a]).
Proof.
  intros w. split.
  - destruct (@HandleBinaryMessage_forwards Engine (Some Stars) 0 0 w) as (H & _).
    apply H. by right.
  - destruct (@HandleBinaryMessage_forwards Engine (Some Stars) 3 5 w) as (_ & H & _).
    destruct (H Stars eq_refl) as [E _]; [lia|exact E].
Defined.

(** A raw message of 2^32 bytes is forwarded as an empty chunk. *)
Lemma HandleBinaryMessage_forwards_counterexample :
  let Size := 2 ^ 32 in
  ∃ Buffer,
    ChunkNotifications
      (output (exec (HandleBinaryMessage (Some Stars) Size 0)
                 (NewObject UAudioReceiver 1%nat))) = [Buffer] ∧
    Z.of_nat (length Buffer) ≠ Size.
Proof. exists []. split; [reflexivity|discriminate]. Qed.







Lemma StopConnection_idempotent_witness :
  let w := NewObject UEmotionReceiver 1%nat in
  WebSocket (self w) = None ∧ bIsConnected (self w) = false ∧
  exec (StopConnection UEmotionReceiver) w = w.
Proof.
  intros w. split_and!; [reflexivity..|].
  destruct (@StopConnection_idempotent Engine UEmotionReceiver w) as (_ & _ & _ & H & _).
  apply H; reflexivity.
Defined.

Lemma StartConnection_without_address_witness :
  let w := Unconfigured UAudioReceiver in
  WebSocketUrl (self w) = ""%string ∧
  self (exec (StartConnection UAudioReceiver "") w) = self w ∧
  sockets (exec (StartConnection UAudioReceiver "") w) = sockets w ∧
  output (exec (StartConnection UAudioReceiver "") w) =
    [UE_LOG Warning "NovaLink AudioReceiver requires a websocket URL."].
Proof.
  intros w. split; [reflexivity|].
  destruct (@StartConnection_without_address Engine UAudioReceiver w eq_refl)
    as (Hs & Hk & _ & Ho).
  split_and!; [exact Hs|exact Hk|exact Ho].
Defined.

Lemma callbacks_notify_in_order_witness :
  let w := NewObject UAudioReceiver 1%nat in
  let cbs := [CbConnected; CbClosed 1000 "bye" true; CbConnected] in
  ConnectionNotifications (output w) = [] ∧
  Alternates
    (ConnectionNotifications (output (exec (RunCallbacks UAudioReceiver cbs) w))) = true.
Proof.
  intros w cbs. split; [reflexivity|].
  destruct (@callbacks_notify_in_order Engine UAudioReceiver cbs w) as [_ H].
  rewrite H; reflexivity.
Defined.

(** Two connection attempts that both fail: the session is started, its
    socket signals a connection error, the session is started again and the
    new socket signals a connection error too.  The listeners receive [false]
    twice in a row. *)
Lemma callbacks_alternate_counterexample :
  let refused := SigConnectionError "connection refused" in
  let w := exec (Run UAudioReceiver
                   [CallStartConnection ""; Signals 0%nat refused;
                    CallStartConnection ""; Signals 1%nat refused])
                (NewObject UAudioReceiver 1%nat) in
  ConnectionNotifications (output w) = [false; false] ∧
  Alternates (ConnectionNotifications (output w)) = false.
Proof. split; reflexivity. Qed.

Lemma Destructor_releases_only_witness :
  let w := ConnectedWorld UAudioReceiver in
  let s := StartedSocket UAudioReceiver 1%nat DefaultAudioUrl in
  let s' := {| ws_Url := ws_Url s; ws_Bindings := ws_Bindings s;
               ws_IsConnected := true; ws_Requests := ws_Requests s |} in
  WebSocket (self w) = Some 0%nat ∧ sockets w !! 0%nat = Some s' ∧
  sockets (exec Destructor w) !! 0%nat = Some s' ∧
  sockets (exec (StopConnection UAudioReceiver) w) !! 0%nat =
    Some (StoppedSocket UAudioReceiver 1%nat s').
Proof.
  intros w s s'. split_and!; [reflexivity|reflexivity| |].
  - destruct (@Destructor_releases_only Engine UAudioReceiver w) as (_ & _ & _ & _ & H).
    apply (H 0%nat s'); reflexivity.
  - destruct (@Destructor_releases_only Engine UAudioReceiver w) as (_ & _ & _ & _ & H).
    apply (H 0%nat s'); reflexivity.
Defined.

(** Destroying a connected receiver leaves its socket bound and without a
    close request, where [StopConnection] unbinds it and requests the
    close. *)
Lemma Destructor_teardown_counterexample :
  let w := ConnectedWorld UAudioReceiver in
  let bound := ws_Bindings (StartedSocket UAudioReceiver 1%nat DefaultAudioUrl) in
  (ws_Bindings <$> sockets (exec Destructor w) !! 0%nat) = Some bound ∧
  (ws_Requests <$> sockets (exec Destructor w) !! 0%nat) = Some [Connect] ∧
  (ws_Bindings <$> sockets (exec (StopConnection UAudioReceiver) w) !! 0%nat) = Some [] ∧
  (ws_Requests <$> sockets (exec (StopConnection UAudioReceiver) w) !! 0%nat) =
    Some [Connect; Close 1000 "AudioReceiver Stop"] ∧
  exec Destructor w ≠ exec (StopConnection UAudioReceiver) w.
Proof.
  split_and!; [reflexivity..|].
  intros E. apply (f_equal (λ w, ws_Requests <$> sockets w !! 0%nat)) in E.
  vm_compute in E. discriminate.
Qed.

Lemma StopConnection_emits_nothing_witness :
  let w := ConnectedWorld UAudioReceiver in
  WebSocket (self w) = Some 0%nat ∧
  bIsConnected (self w) = true ∧
  output (exec (Fire UAudioReceiver 0%nat (SigClosed 1000 "AudioReceiver Stop" true))
            (exec (StopConnection UAudioReceiver) w)) = output w.
Proof.
  intros w. split_and!; [reflexivity..|].
  destruct (@StopConnection_emits_nothing Engine UAudioReceiver w) as (_ & _ & H & _).
  apply H; [reflexivity|].
  unfold Subscribed; cbn. rewrite !elem_of_cons; auto.
Defined.

End OnReference.

(** * Further properties *)

Section FurtherProperties.
Context `{UE : UnrealEngine}.

Lemma DefaultUrl_not_empty K : DefaultUrl K ≠ ""%string.
Proof. by destruct K. Qed.

Lemma TargetUrl_Constructor K Url :
  IsEmpty (TargetUrl Url (Constructor K)) = false.
Proof.
  unfold TargetUrl. destruct (IsEmpty Url) eqn:E; [|done].
  apply IsEmpty_false, DefaultUrl_not_empty.
Qed.

Lemma StopConnection_stopped K w :
  WebSocket (self w) = None → bIsConnected (self w) = false →
  exec (StopConnection K) w = w.
Proof.
  intros Hn Hc. rewrite StopConnection_exec.
  destruct w as [obj [url c o] socks out]; cbn in *. by subst.
Qed.

Lemma bound_to_same d obj fn :
  bound_to d obj {| bound_delegate := d; bound_object := obj; bound_fn := fn |} = true.
Proof. unfold bound_to; cbn. by rewrite !bool_decide_eq_true_2. Qed.

Lemma bound_to_other d d' obj obj' fn :
  d' ≠ d →
  bound_to d obj {| bound_delegate := d'; bound_object := obj'; bound_fn := fn |} = false.
Proof. intros H. unfold bound_to; cbn. by rewrite bool_decide_eq_false_2. Qed.

Lemma MessageDelegate_not_connection K :
  MessageDelegate K ≠ OnConnected ∧ MessageDelegate K ≠ OnConnectionError ∧
  MessageDelegate K ≠ OnClosed.
Proof. by destruct K. Qed.

Lemma UnboundSocket_StartedSocket K obj Url :
  UnboundSocket K obj (StartedSocket K obj Url) =
  {| ws_Url := Url; ws_Bindings := []; ws_IsConnected := false; ws_Requests := [Connect] |}.
Proof.
  destruct (MessageDelegate_not_connection K) as (H1 & H2 & H3).
  unfold UnboundSocket, StartedSocket; cbn [ws_Url ws_Bindings ws_IsConnected ws_Requests].
  f_equal. cbn [List.filter].
  rewrite bound_to_same; cbn [negb List.filter].
  rewrite !bound_to_other by done; cbn [negb List.filter].
  rewrite bound_to_same; cbn [negb List.filter].
  rewrite !bound_to_other by done; cbn [negb List.filter].
  rewrite bound_to_same; cbn [negb List.filter].
  rewrite !bound_to_other by done; cbn [negb List.filter].
  by rewrite bound_to_same.
Qed.

(** X1. The [Connect...] functions of the library.  Without a world context
    no receiver is created.  With one, the receiver is constructed and
    started: it holds a socket that did not exist before, created for the
    given address or, when that is empty, for the default address of the
    class, with the four bindings and the connect request; the other sockets
    and the output are untouched, so the warning about a missing address is
    never logged.  Leaving the address at the default of the declaration is
    the same as passing the empty string. *)
Theorem Connect_creates_and_starts K obj Url socks out :
  ConnectOf K None obj Url socks out = None ∧
  (∀ ctx, ∃ h,
     socks !! h = None ∧
     ConnectOf K (Some ctx) obj Url socks out =
       Some {| this := obj;
               self := {| WebSocketUrl := DefaultUrl K; bIsConnected := false;
                          WebSocket := Some h |};
               sockets :=
                 <[h := StartedSocket K obj (if IsEmpty Url then DefaultUrl K else Url)]> socks;
               output := out |}) ∧
  (∀ ctx, ConnectOf K ctx obj (ConnectDefaultUrl K) socks out =
          ConnectOf K ctx obj "" socks out).
Proof.
  assert (Hstart : ∀ u,
    exec (StartConnection K u) (NewObjectIn K obj socks out) =
    {| this := obj;
       self := {| WebSocketUrl := DefaultUrl K; bIsConnected := false;
                  WebSocket := Some (fresh (dom socks)) |};
       sockets := <[fresh (dom socks) :=
                      StartedSocket K obj (if IsEmpty u then DefaultUrl K else u)]> socks;
       output := out |}).
  { intros u. rewrite StartConnection_exec by apply TargetUrl_Constructor.
    by rewrite StopConnection_stopped. }
  split_and!.
  - by destruct K.
  - intros ctx. exists (fresh (dom socks)). split.
    + apply not_elem_of_dom, is_fresh.
    + destruct K; cbn; by rewrite Hstart.
  - intros [ctx|]; [|by destruct K].
    destruct K; cbn; by rewrite !Hstart.
Qed.

(** X6. Calling [StopConnection] before [StartConnection] is redundant: with
    a non-empty resolved address the two calls leave the same world as
    [StartConnection] alone. *)
Theorem StartConnection_after_StopConnection K u w :
  TargetUrl u (self w) ≠ ""%string →
  exec (StartConnection K u) (exec (StopConnection K) w) = exec (StartConnection K u) w.
Proof.
  intros Hne.
  assert (Ht : TargetUrl u (self (exec (StopConnection K) w)) = TargetUrl u (self w))
    by (by rewrite StopConnection_exec).
  rewrite !StartConnection_exec by (rewrite ?Ht; by apply IsEmpty_false).
  cbv zeta. rewrite Ht.
  assert (E : exec (StopConnection K) (exec (StopConnection K) w) = exec (StopConnection K) w)
    by (by rewrite !StopConnection_exec).
  rewrite E. by rewrite StopConnection_exec.
Qed.

(** X7. A connection attempt that is stopped before the socket has reported
    the connection is not cancelled at the socket: after [StartConnection]
    followed by [StopConnection] the new socket still has its connect request
    and no request to close; it carries no binding any more, the session
    holds no socket and is not connected, nothing was emitted, and whatever
    the socket signals later reaches no handler. *)
Theorem StopConnection_while_connecting K u w :
  TargetUrl u (self w) ≠ ""%string →
  let w2 := exec (StopConnection K) (exec (StartConnection K u) w) in
  ∃ h,
    sockets w !! h = None ∧
    sockets w2 !! h =
      Some {| ws_Url := TargetUrl u (self w); ws_Bindings := [];
              ws_IsConnected := false; ws_Requests := [Connect] |} ∧
    WebSocket (self w2) = None ∧
    eval IsConnected w2 = false ∧
    output w2 = output w ∧
    ∀ sg, SignalDelegate sg ∈ Subscribed K →
      self (exec (Fire K h sg) w2) = self w2 ∧
      output (exec (Fire K h sg) w2) = output w.
Proof.
  intros Hne w2.
  set (w1 := exec (StartConnection K u) w) in *.
  assert (Hw1 : w1 = _) by (apply StartConnection_exec; by apply IsEmpty_false).
  cbv zeta in Hw1.
  set (h := fresh (dom (sockets (exec (StopConnection K) w)))) in Hw1.
  assert (Hh : WebSocket (self w1) = Some h) by (by rewrite Hw1).
  assert (Ho : output w1 = output w) by (by rewrite Hw1).
  exists h. split_and!.
  - apply not_elem_of_dom. rewrite <- (StopConnection_dom K w). apply is_fresh.
  - subst w2. rewrite StopConnection_exec; cbn [sockets]. rewrite Hh.
    rewrite lookup_alter_eq. rewrite Hw1 at 2; cbn [sockets this].
    rewrite lookup_insert_eq; cbn. rewrite Hw1; cbn [this].
    unfold StoppedSocket; cbn [StartedSocket ws_IsConnected].
    by rewrite UnboundSocket_StartedSocket.
  - subst w2. by rewrite StopConnection_exec.
  - subst w2. by rewrite StopConnection_exec.
  - subst w2. by rewrite StopConnection_exec.
  - intros sg Hd. rewrite <- Ho. by apply Fire_after_StopConnection.
Qed.


Lemma Fire_exec K h sg w ws :
  sockets w !! h = Some ws →
  exec (Fire K h sg) w =
  exec (InvokeAll K (List.filter (bound_to (SignalDelegate sg) (this w)) (ws_Bindings ws)) sg)
       (Noted h sg w).
Proof. intros H. unfold exec at 1, Fire, bind; cbn. by rewrite H. Qed.

Lemma InvokeAll_one K b sg w :
  exec (InvokeAll K [b] sg) w = exec (Invoke K (bound_fn b) sg) w.
Proof. by rewrite InvokeAll_cons. Qed.

Lemma StartedSocket_bound K obj Url d :
  List.filter (bound_to d obj) (ws_Bindings (StartedSocket K obj Url)) =
  if bool_decide (d ∈ Subscribed K)
  then [{| bound_delegate := d; bound_object := obj;
           bound_fn := match d with
                       | OnConnected => FnHandleConnected
                       | OnConnectionError => FnHandleConnectionError
                       | OnClosed => FnHandleClosed
                       | OnRawMessage => FnHandleBinaryMessage
                       | OnMessage => FnHandleMessage
                       end |}]
  else [].
Proof.
  unfold StartedSocket; cbn [ws_Bindings List.filter].
  destruct K, d; cbn [MessageDelegate MessageHandler];
    repeat first [rewrite bound_to_same | rewrite bound_to_other by done];
    reflexivity.
Qed.

Lemma Fire_started K u w :
  TargetUrl u (self w) ≠ ""%string →
  let w' := exec (StartConnection K u) w in
  ∃ h,
    WebSocket (self w') = Some h ∧
    output w' = output w ∧
    ∀ sg,
      exec (Fire K h sg) w' =
      exec (InvokeAll K
              (List.filter (bound_to (SignalDelegate sg) (this w))
                 (ws_Bindings (StartedSocket K (this w) (TargetUrl u (self w))))) sg)
           (Noted h sg w').
Proof.
  intros Hne w'.
  assert (Hw' : w' = _) by (apply StartConnection_exec; by apply IsEmpty_false).
  cbv zeta in Hw'.
  set (h := fresh (dom (sockets (exec (StopConnection K) w)))) in Hw'.
  exists h. split_and!; [by rewrite Hw'..|]. intros sg.
  rewrite (Fire_exec K h sg w' (StartedSocket K (this w) (TargetUrl u (self w))))
    by (rewrite Hw'; cbn; apply lookup_insert_eq).
  assert (Ht : this w' = this w) by (by rewrite Hw'). by rewrite Ht.
Qed.

(** X2. The bindings [StartConnection] registers route each signal of the
    new socket to its handler, once: a signal on one of the four delegates
    the class subscribes to has the effect of the handler of that name, and a
    signal on the remaining delegate (text messages for the audio receiver,
    raw messages for the emotion receiver) has no effect on the receiver. *)
Theorem StartConnection_routes_signals K u w :
  TargetUrl u (self w) ≠ ""%string →
  let w' := exec (StartConnection K u) w in
  ∃ h,
    WebSocket (self w') = Some h ∧
    ∀ sg,
      exec (Fire K h sg) w' =
      if bool_decide (SignalDelegate sg ∈ Subscribed K)
      then exec (Invoke K (HandlerOf sg) sg) (Noted h sg w')
      else Noted h sg w'.
Proof.
  intros Hne w'.
  destruct (Fire_started K u w Hne) as (h & Hh & _ & Hfire). fold w' in Hh, Hfire.
  exists h. split; [done|]. intros sg.
  rewrite Hfire, StartedSocket_bound.
  destruct (bool_decide (SignalDelegate sg ∈ Subscribed K)); [|done].
  rewrite InvokeAll_one; cbn [bound_fn]. by destruct sg.
Qed.

Lemma ConnectionNotifications_Emitting w e :
  (∀ b, e ≠ OnConnectionStateChanged b) →
  ConnectionNotifications (output (Emitting w e)) = ConnectionNotifications (output w).
Proof.
  intros He. cbn [Emitting output]. rewrite ConnectionNotifications_app.
  destruct e; cbn; rewrite ?app_nil_r; try done. by destruct (He bConnected).
Qed.

Lemma HandleBinaryMessage_cases Data Size BytesRemaining w :
  exec (HandleBinaryMessage Data Size BytesRemaining) w = w ∨
  ∃ Buffer, exec (HandleBinaryMessage Data Size BytesRemaining) w =
            Emitting w (OnAudioChunkReceived Buffer).
Proof.
  unfold exec, HandleBinaryMessage. destruct Data as [ByteData|]; [|by left].
  destruct (Size =? 0); [by left|].
  destruct (TArray_Append [] ByteData (static_cast_int32 Size)); [right|by left].
  by eexists.
Qed.

Lemma HandleMessage_cases Message w :
  ∃ e, exec (HandleMessage Message) w = Emitting w e ∧
       ∀ b, e ≠ OnConnectionStateChanged b.
Proof.
  rewrite HandleMessage_exec.
  destruct (Deserialize Message) as [[] [Values|]]; try (by eexists).
  cbv zeta. destruct (bool_decide _); by eexists.
Qed.

(** What a payload handler leaves alone. *)
Lemma Invoke_payload K fn sg w :
  IsPayload sg = true →
  self (exec (Invoke K fn sg) w) = self w ∧
  sockets (exec (Invoke K fn sg) w) = sockets w ∧
  ConnectionNotifications (output (exec (Invoke K fn sg) w)) =
    ConnectionNotifications (output w).
Proof.
  intros Hp. destruct sg; try done; destruct fn; try done; unfold Invoke.
  - destruct (HandleBinaryMessage_cases Data Size BytesRemaining w) as [->|[B ->]]; [done|].
    by rewrite ConnectionNotifications_Emitting.
  - destruct (HandleMessage_cases Message w) as (e & -> & He).
    by rewrite ConnectionNotifications_Emitting.
Qed.

Lemma Noted_payload h sg w : IsPayload sg = true → Noted h sg w = w.
Proof.
  intros Hp. unfold Noted, exec, update_socket; cbn.
  rewrite alter_id; [by destruct w|].
  intros [] _. by destruct sg.
Qed.

(** X9. A payload signal, whatever socket it comes from and whatever it
    carries, changes neither the members of the session nor any socket and
    produces no connection-state notification: a message that cannot be
    decoded or forwarded leaves the connection as it is. *)
Theorem payload_signals_leave_session K h sg w :
  IsPayload sg = true →
  self (exec (Fire K h sg) w) = self w ∧
  sockets (exec (Fire K h sg) w) = sockets w ∧
  ConnectionNotifications (output (exec (Fire K h sg) w)) =
    ConnectionNotifications (output w).
Proof.
  intros Hp. destruct (sockets w !! h) as [ws|] eqn:Hs;
    [|by rewrite Fire_missing].
  rewrite (Fire_exec K h sg w ws Hs), Noted_payload by done.
  generalize (List.filter (bound_to (SignalDelegate sg) (this w)) (ws_Bindings ws)).
  intros bs. revert w Hs. induction bs as [|b bs IH]; intros w Hs; [done|].
  rewrite InvokeAll_cons.
  destruct (Invoke_payload K (bound_fn b) sg w Hp) as (E1 & E2 & E3).
  destruct (IH (exec (Invoke K (bound_fn b) sg) w)) as (F1 & F2 & F3).
  { by rewrite E2. }
  split_and!; congruence.
Qed.

(** FlagNotified *)
Lemma FlagNotified_Invoke K fn sg w :
  FlagNotified w → FlagNotified (exec (Invoke K fn sg) w).
Proof.
  intros Hw. destruct fn, sg; unfold Invoke; try exact Hw.
  - rewrite HandleConnected_exec. intros _; cbn [output].
    rewrite ConnectionNotifications_app. cbn. apply last_snoc.
  - rewrite HandleConnectionError_exec. by intros [=].
  - rewrite HandleClosed_exec. by intros [=].
  - destruct (HandleBinaryMessage_cases Data Size BytesRemaining w) as [->|[B ->]]; [done|].
    unfold FlagNotified. rewrite ConnectionNotifications_Emitting by done. apply Hw.
  - destruct (HandleMessage_cases Message w) as (e & -> & He).
    unfold FlagNotified. rewrite ConnectionNotifications_Emitting by done. apply Hw.
Qed.

Lemma FlagNotified_InvokeAll K bs sg :
  ∀ w, FlagNotified w → FlagNotified (exec (InvokeAll K bs sg) w).
Proof.
  induction bs as [|b bs IH]; intros w Hw; [done|].
  rewrite InvokeAll_cons. by apply IH, FlagNotified_Invoke.
Qed.

Lemma FlagNotified_RunStep K st w :
  FlagNotified w → FlagNotified (exec (RunStep K st) w).
Proof.
  intros Hw. destruct st as [u| |h sg]; cbn [RunStep].
  - destruct (IsEmpty (TargetUrl u (self w))) eqn:He.
    + rewrite StartConnection_empty by done.
      unfold FlagNotified. rewrite ConnectionNotifications_Emitting by done. apply Hw.
    + rewrite StartConnection_exec by done. by intros [=].
  - rewrite StopConnection_exec. by intros [=].
  - destruct (sockets w !! h) as [ws|] eqn:Hs; [|by rewrite Fire_missing].
    rewrite (Fire_exec K h sg w ws Hs). apply FlagNotified_InvokeAll.
    exact Hw.
Qed.

(** X5. The connected flag never runs ahead of the listeners: through any
    sequence of host calls and socket signals, whenever [IsConnected()]
    answers true the last connection-state notification was [true]. *)
Theorem connected_flag_follows_notification K sts w :
  FlagNotified w → FlagNotified (exec (Run K sts) w).
Proof.
  revert w. induction sts as [|st sts IH]; intros w Hw; [done|].
  rewrite Run_cons. by apply IH, FlagNotified_RunStep.
Qed.


(** Kept *)
Lemma Kept_NewObject K obj : Kept K obj (NewObject K obj).
Proof. split_and!; [done| |]; intros h; cbn; [intros s|]; by rewrite ?lookup_empty. Qed.

Lemma Kept_frame K obj w w' :
  this w' = this w → sockets w' = sockets w →
  WebSocket (self w') = WebSocket (self w) ∨ WebSocket (self w') = None →
  Kept K obj w → Kept K obj w'.
Proof.
  intros Ht Hs Hp (K1 & K2 & K3). split_and!.
  - congruence.
  - rewrite Hs. apply K2.
  - rewrite Hs. destruct Hp as [-> | ->]; [apply K3|done].
Qed.

Lemma Noted_exec h sg w :
  Noted h sg w =
  {| this := this w; self := self w;
     sockets := alter (λ s,
       {| ws_Url := ws_Url s; ws_Bindings := ws_Bindings s;
          ws_IsConnected := SignalConnected sg (ws_IsConnected s);
          ws_Requests := ws_Requests s |}) h (sockets w);
     output := output w |}.
Proof. reflexivity. Qed.

Lemma Kept_Noted K obj h sg w : Kept K obj w → Kept K obj (Noted h sg w).
Proof.
  intros (K1 & K2 & K3). rewrite Noted_exec.
  split_and!; [done| |]; cbn [sockets self].
  - intros h' s'. rewrite lookup_alter. case_decide; [subst h'|apply K2].
    destruct (sockets w !! h) as [s|] eqn:Hs; [|done]. cbn. intros [= <-]; cbn.
    by apply (K2 h s).
  - intros h' Hh'. destruct (K3 h' Hh') as (s & Hs & Hb & Hr).
    rewrite lookup_alter. case_decide; [subst h'|by exists s].
    rewrite Hs; cbn. by eexists.
Qed.

Lemma Kept_StopConnection K obj w :
  Kept K obj w → Kept K obj (exec (StopConnection K) w).
Proof.
  intros (K1 & K2 & K3). rewrite StopConnection_exec. split_and!; [done| |by cbn].
  cbn [sockets]. destruct (WebSocket (self w)) as [h|] eqn:Hh; [|apply K2].
  intros h' s'. rewrite lookup_alter. case_decide; [subst h'|apply K2].
  destruct (K3 h eq_refl) as (s & Hs & Hb & Hr). rewrite Hs; cbn. intros [= <-].
  split.
  - unfold StoppedSocket. destruct (ws_IsConnected s); cbn; by apply (K2 h s).
  - unfold StoppedSocket, RequestsInOrder.
    destruct (ws_IsConnected s); cbn; rewrite Hr; [by right|by left].
Qed.

Lemma Kept_StartConnection K obj u w :
  Kept K obj w → Kept K obj (exec (StartConnection K u) w).
Proof.
  intros Hw. destruct (IsEmpty (TargetUrl u (self w))) eqn:He.
  - rewrite StartConnection_empty by done. by apply (Kept_frame K obj w); [..|left|].
  - rewrite StartConnection_exec by done. cbv zeta.
    destruct (Kept_StopConnection K obj w Hw) as (K1 & K2 & K3).
    assert (Ht : this w = obj) by (by rewrite StopConnection_exec in K1).
    split_and!; [done| |].
    + intros h s; cbn [sockets]. rewrite lookup_insert. case_decide; [|apply K2].
      intros [= <-]; cbn. split; [|by left].
      intros E. unfold IsEmpty in He. by rewrite E in He.
    + intros h [= <-]; cbn [sockets]. rewrite lookup_insert_eq, Ht. by eexists.
Qed.

Lemma Kept_Invoke K obj fn sg w :
  Kept K obj w → Kept K obj (exec (Invoke K fn sg) w).
Proof.
  intros Hw. destruct fn, sg; unfold Invoke; try exact Hw.
  - rewrite HandleConnectionError_exec. by apply (Kept_frame K obj w); [..|right|].
  - rewrite HandleClosed_exec. by apply (Kept_frame K obj w); [..|right|].
  - destruct (HandleBinaryMessage_cases Data Size BytesRemaining w) as [->|[B ->]]; [done|].
    by apply (Kept_frame K obj w); [..|left|].
  - destruct (HandleMessage_cases Message w) as (e & -> & He).
    by apply (Kept_frame K obj w); [..|left|].
Qed.

Lemma Kept_InvokeAll K obj bs sg :
  ∀ w, Kept K obj w → Kept K obj (exec (InvokeAll K bs sg) w).
Proof.
  induction bs as [|b bs IH]; intros w Hw; [done|].
  rewrite InvokeAll_cons. by apply IH, Kept_Invoke.
Qed.

Lemma Kept_Run K obj sts :
  ∀ w, Kept K obj w → Kept K obj (exec (Run K sts) w).
Proof.
  induction sts as [|st sts IH]; intros w Hw; [done|].
  rewrite Run_cons. apply IH. destruct st as [u| |h sg]; cbn [RunStep].
  - by apply Kept_StartConnection.
  - by apply Kept_StopConnection.
  - destruct (sockets w !! h) as [ws|] eqn:Hs; [|by rewrite Fire_missing].
    rewrite (Fire_exec K h sg w ws Hs). by apply Kept_InvokeAll, Kept_Noted.
Qed.

(** X3. Through any sequence of host calls and socket signals on a new
    receiver, every socket was created for a non-empty address and has been
    given exactly one connect request, followed by at most one request to
    close, which then has code 1000 and the reason of the class; the socket
    the session holds has not been asked to close. *)
Theorem sockets_requests_in_order K obj sts h s :
  sockets (exec (Run K sts) (NewObject K obj)) !! h = Some s →
  ws_Url s ≠ ""%string ∧
  (ws_Requests s = [Connect] ∨
   ws_Requests s = [Connect; Close 1000 (ClassName K +:+ " Stop")]) ∧
  (WebSocket (self (exec (Run K sts) (NewObject K obj))) = Some h →
   ws_Requests s = [Connect]).
Proof.
  intros Hs.
  destruct (Kept_Run K obj sts _ (Kept_NewObject K obj)) as (K1 & K2 & K3).
  destruct (K2 h s Hs) as [Hu Hr]. split_and!; [done..|].
  intros Hh. destruct (K3 h Hh) as (s' & Hs' & _ & Hr'). congruence.
Qed.

(** X4. Through any sequence of host calls and socket signals on a new
    receiver, the socket the session holds exists and carries exactly the
    four callbacks of the receiver: connected, error, closed, and raw message
    for the audio receiver or text message for the emotion receiver. *)
Theorem held_socket_bound K obj sts h :
  WebSocket (self (exec (Run K sts) (NewObject K obj))) = Some h →
  ∃ s, sockets (exec (Run K sts) (NewObject K obj)) !! h = Some s ∧
       ws_Bindings s =
         [{| bound_delegate := OnConnected; bound_object := obj;
             bound_fn := FnHandleConnected |};
          {| bound_delegate := OnConnectionError; bound_object := obj;
             bound_fn := FnHandleConnectionError |};
          {| bound_delegate := OnClosed; bound_object := obj;
             bound_fn := FnHandleClosed |};
          match K with
          | UAudioReceiver =>
              {| bound_delegate := OnRawMessage; bound_object := obj;
                 bound_fn := FnHandleBinaryMessage |}
          | UEmotionReceiver =>
              {| bound_delegate := OnMessage; bound_object := obj;
                 bound_fn := FnHandleMessage |}
          end] ∧
       length (ws_Bindings s) = 4%nat.
Proof.
  intros Hh.
  destruct (Kept_Run K obj sts _ (Kept_NewObject K obj)) as (K1 & K2 & K3).
  destruct (K3 h Hh) as (s & Hs & Hb & _). exists s.
  rewrite Hb. split_and!; [done| |done]. by destruct K.
Qed.

(** WebSocketUrl *)
Lemma WebSocketUrl_Invoke K fn sg w :
  WebSocketUrl (self (exec (Invoke K fn sg) w)) = WebSocketUrl (self w).
Proof.
  destruct fn, sg; unfold Invoke; try reflexivity.
  - by rewrite HandleConnectionError_exec.
  - by rewrite HandleClosed_exec.
  - by destruct (HandleBinaryMessage_cases Data Size BytesRemaining w) as [->|[B ->]].
  - by destruct (HandleMessage_cases Message w) as (e & -> & He).
Qed.

Lemma WebSocketUrl_InvokeAll K bs sg :
  ∀ w, WebSocketUrl (self (exec (InvokeAll K bs sg) w)) = WebSocketUrl (self w).
Proof.
  induction bs as [|b bs IH]; intros w; [done|].
  by rewrite InvokeAll_cons, IH, WebSocketUrl_Invoke.
Qed.

Lemma WebSocketUrl_RunStep K st w :
  WebSocketUrl (self (exec (RunStep K st) w)) = WebSocketUrl (self w).
Proof.
  destruct st as [u| |h sg]; cbn [RunStep].
  - destruct (IsEmpty (TargetUrl u (self w))) eqn:He.
    + by rewrite StartConnection_empty.
    + by rewrite StartConnection_exec.
  - by rewrite StopConnection_exec.
  - destruct (sockets w !! h) as [ws|] eqn:Hs; [|by rewrite Fire_missing].
    by rewrite (Fire_exec K h sg w ws Hs), WebSocketUrl_InvokeAll.
Qed.

Lemma WebSocketUrl_Run K sts :
  ∀ w, WebSocketUrl (self (exec (Run K sts) w)) = WebSocketUrl (self w).
Proof.
  induction sts as [|st sts IH]; intros w; [done|].
  by rewrite Run_cons, IH, WebSocketUrl_RunStep.
Qed.

(** X11. No host call and no signal changes the configured address, and an
    override is not remembered: after a start with an override, a start
    without one connects to the configured address again. *)
Theorem override_address_not_kept K sts u w :
  WebSocketUrl (self (exec (Run K sts) w)) = WebSocketUrl (self w) ∧
  (WebSocketUrl (self w) ≠ ""%string →
   let w2 := exec (Run K [CallStartConnection u; CallStartConnection ""]) w in
   ∃ h s, WebSocket (self w2) = Some h ∧ sockets w2 !! h = Some s ∧
          ws_Url s = WebSocketUrl (self w)).
Proof.
  split; [apply WebSocketUrl_Run|]. intros Hne w2.
  subst w2. rewrite !Run_cons. cbn [Run RunStep].
  set (w1 := exec (StartConnection K u) w).
  assert (Hu : WebSocketUrl (self w1) = WebSocketUrl (self w))
    by apply (WebSocketUrl_RunStep K (CallStartConnection u) w).
  assert (Ht : TargetUrl "" (self w1) = WebSocketUrl (self w)) by (by unfold TargetUrl).
  change (exec (ret tt) ?x) with x.
  rewrite StartConnection_exec by (rewrite Ht; by apply IsEmpty_false).
  cbv zeta. eexists _, _. split_and!; [done|apply lookup_insert_eq|].
  by rewrite Ht.
Qed.

(** Stale bindings *)
(** X12. The connection callbacks do not touch any socket.  The error and
    the closed callback release the pointer without unbinding the receiver,
    and since the next [StartConnection] finds no socket to stop, the socket
    that failed or closed stays exactly as it was, bindings included. *)
Theorem callbacks_leave_socket_bound K cb u w h s :
  sockets w !! h = Some s →
  sockets (exec (RunCallback K cb) w) = sockets w ∧
  (CallbackValue cb = false →
   WebSocket (self (exec (RunCallback K cb) w)) = None ∧
   sockets (exec (StartConnection K u) (exec (RunCallback K cb) w)) !! h = Some s).
Proof.
  intros Hs.
  assert (E : sockets (exec (RunCallback K cb) w) = sockets w).
  { destruct cb; cbn [RunCallback];
      by rewrite ?HandleConnected_exec, ?HandleConnectionError_exec, ?HandleClosed_exec. }
  split; [done|]. intros Hf.
  set (w1 := exec (RunCallback K cb) w) in *.
  assert (Hp : WebSocket (self w1) = None).
  { subst w1. destruct cb; try done; cbn [RunCallback];
      by rewrite ?HandleConnectionError_exec, ?HandleClosed_exec. }
  split; [done|].
  destruct (IsEmpty (TargetUrl u (self w1))) eqn:He.
  - rewrite StartConnection_empty by done. cbn. by rewrite E.
  - rewrite StartConnection_exec by done. cbv zeta. cbn [sockets].
    rewrite StopConnection_exec, Hp; cbn [sockets].
    rewrite lookup_insert_ne; [by rewrite E|].
    intros Heq. pose proof (is_fresh (dom (sockets w1))) as Hfr.
    rewrite Heq in Hfr. apply Hfr, elem_of_dom. rewrite E. by eexists.
Qed.


Lemma ChunkNotifications_app (l1 l2 : list Event) :
  ChunkNotifications (l1 ++ l2) = ChunkNotifications l1 ++ ChunkNotifications l2.
Proof. apply omap_app. Qed.

Lemma InputBytes_app ByteData n m :
  0 ≤ n → 0 ≤ m →
  InputBytes ByteData (n + m) =
  InputBytes ByteData n ++ InputBytes (λ i, ByteData (n + i)) m.
Proof.
  intros Hn Hm. unfold InputBytes.
  rewrite seqZ_app, fmap_app by done. f_equal.
  replace (0 + n) with (n + 0) by lia.
  by rewrite <- (fmap_add_seqZ n 0 m), <- list_fmap_compose.
Qed.

Lemma Forward_cons Data Size BytesRemaining frames w :
  exec (Forward ((Data, Size, BytesRemaining) :: frames)) w =
  exec (Forward frames) (exec (HandleBinaryMessage Data Size BytesRemaining) w).
Proof.
  unfold exec; cbn [Forward]. unfold bind.
  by destruct (HandleBinaryMessage Data Size BytesRemaining w).
Qed.

Lemma HandleBinaryMessage_in_range ByteData Size BytesRemaining w :
  0 < Size ≤ 2 ^ 31 - 1 →
  exec (HandleBinaryMessage (Some ByteData) Size BytesRemaining) w =
  Emitting w (OnAudioChunkReceived (InputBytes ByteData Size)).
Proof.
  intros Hs. rewrite HandleBinaryMessage_exec by lia.
  rewrite static_cast_int32_small by lia.
  by rewrite TArray_Append_count by lia.
Qed.

Lemma sizes_sum_nonneg sizes :
  Forall (λ n, 0 < n ≤ 2 ^ 31 - 1) sizes → 0 ≤ foldr Z.add 0 sizes.
Proof. induction 1; cbn; lia. Qed.

(** X8. A message delivered in fragments, each of a size between 1 and
    2^31 - 1, is forwarded as one chunk per fragment, in order and without
    reassembly: the chunks have the sizes of the fragments and their
    concatenation is the message. *)
Theorem fragments_forwarded_in_order ByteData sizes w :
  Forall (λ n, 0 < n ≤ 2 ^ 31 - 1) sizes →
  ∃ chunks,
    ChunkNotifications (output (exec (Forward (Fragments ByteData sizes)) w)) =
      ChunkNotifications (output w) ++ chunks ∧
    Z.of_nat ∘ length <$> chunks = sizes ∧
    concat chunks = InputBytes ByteData (foldr Z.add 0 sizes).
Proof.
  intros Hs. revert ByteData w.
  induction Hs as [|n sizes Hn Hs IH]; intros ByteData w.
  - exists []. by rewrite app_nil_r.
  - cbn [Fragments]. rewrite Forward_cons, HandleBinaryMessage_in_range by done.
    destruct (IH (λ i, ByteData (n + i))
                 (Emitting w (OnAudioChunkReceived (InputBytes ByteData n))))
      as (chunks & Hc & Hl & Hcat).
    exists (InputBytes ByteData n :: chunks). split_and!.
    + rewrite Hc. cbn [Emitting output]. rewrite ChunkNotifications_app.
      by rewrite <- app_assoc.
    + cbn. rewrite Hl. f_equal. apply length_InputBytes. lia.
    + cbn [concat foldr]. rewrite Hcat.
      symmetry. apply InputBytes_app; [lia|by apply sizes_sum_nonneg].
Qed.

(** Decoder out-parameter *)
Lemma foldl_ParsePair_dom (Values : list (string * option FJsonValue)) :
  ∀ (m : gmap string float) k,
    is_Some (foldl ParsePair m Values !! k) → is_Some (m !! k) ∨ k ∈ Values.*1.
Proof.
  induction Values as [|[k0 ov0] Values IH]; intros m k Hk; [by left|].
  cbn [foldl] in Hk. apply IH in Hk as [Hk|Hk]; [|right; cbn; by right].
  rewrite ParsePair_insert in Hk.
  destruct (ov0 ≫= UsableValue); [|by left].
  rewrite lookup_insert in Hk. case_decide; [subst; right; cbn; left|by left].
Qed.

Lemma foldl_ParsePair_size (Values : list (string * option FJsonValue)) :
  ∀ m : gmap string float,
    (size (foldl ParsePair m Values) ≤ size m + length Values)%nat.
Proof.
  induction Values as [|[k0 ov0] Values IH]; intros m; cbn [foldl length]; [lia|].
  etrans; [apply IH|]. rewrite ParsePair_insert.
  destruct (ov0 ≫= UsableValue); [|lia].
  rewrite map_size_insert. destruct (m !! k0); cbn; lia.
Qed.

(** X10. The out-parameter of [TryParseEmotionMessage].  When the message
    is not a JSON object the function returns false and leaves the map
    untouched.  When it is one, the prior content of the map is gone: the
    result does not depend on it, the map is not empty when the function
    returns true and empty when it returns false, its keys are keys of the
    object, and it has at most as many entries as the object has pairs. *)
Theorem TryParseEmotionMessage_out Message OutValues :
  let r := TryParseEmotionMessage Message OutValues in
  ((Deserialize Message).1 = false ∨ (Deserialize Message).2 = None →
     r = (false, OutValues)) ∧
  (∀ Values, Deserialize Message = (true, Some Values) →
     (r.1 = true → r.2 ≠ ∅) ∧
     (r.1 = false → r.2 = ∅) ∧
     (∀ OutValues', TryParseEmotionMessage Message OutValues' = r) ∧
     (∀ k, is_Some (r.2 !! k) → k ∈ Values.*1) ∧
     (size r.2 ≤ length Values)%nat).
Proof.
  cbv zeta. unfold TryParseEmotionMessage. split.
  - destruct (Deserialize Message) as [[] [Values|]]; cbn; intros [?|?]; done.
  - intros Values ->. cbn [fst snd]. split_and!.
    + intros Ht. apply bool_decide_eq_true in Ht.
      apply map_size_non_empty_iff. lia.
    + intros Hf. apply bool_decide_eq_false in Hf.
      apply map_size_empty_inv. lia.
    + done.
    + intros k Hk. apply foldl_ParsePair_dom in Hk as [Hk|Hk]; [|done].
      rewrite lookup_empty in Hk. by destruct Hk.
    + etrans; [apply foldl_ParsePair_size|]. by rewrite map_size_empty.
Qed.

(** X13. After [StartConnection], the signals of the new socket drive the
    session: connected makes [IsConnected()] true, keeps the socket and
    notifies [true]; a connection error and a close make it false, release
    the socket and notify [false]. *)
Theorem StartConnection_then_signals K u w :
  TargetUrl u (self w) ≠ ""%string →
  let w' := exec (StartConnection K u) w in
  ∃ h,
    WebSocket (self w') = Some h ∧
    (let wc := exec (Fire K h SigConnected) w' in
     eval IsConnected wc = true ∧ WebSocket (self wc) = Some h ∧
     output wc = output w ++ [OnConnectionStateChanged true]) ∧
    (∀ e, let we := exec (Fire K h (SigConnectionError e)) w' in
     eval IsConnected we = false ∧ WebSocket (self we) = None ∧
     ConnectionNotifications (output we) = ConnectionNotifications (output w) ++ [false]) ∧
    (∀ c r b, let wx := exec (Fire K h (SigClosed c r b)) w' in
     eval IsConnected wx = false ∧ WebSocket (self wx) = None ∧
     output wx = output w ++ [OnConnectionStateChanged false]).
Proof.
  intros Hne w'.
  destruct (Fire_started K u w Hne) as (h & Hh & Ho & Hfire). fold w' in Hh, Ho, Hfire.
  assert (Hsub : ∀ sg, SignalDelegate sg ∈ [OnConnected; OnConnectionError; OnClosed] →
                       bool_decide (SignalDelegate sg ∈ Subscribed K) = true).
  { intros sg Hin. apply bool_decide_eq_true_2. unfold Subscribed.
    rewrite !elem_of_cons in Hin. rewrite !elem_of_cons.
    destruct Hin as [->|[->|[->|Hin]]]; auto 6. }
  exists h. split_and!; [done| |intros e|intros c r b]; cbv zeta;
    rewrite Hfire, StartedSocket_bound, Hsub by (cbn; rewrite !elem_of_cons; auto);
    rewrite InvokeAll_one; cbn [bound_fn SignalDelegate Invoke].
  - rewrite HandleConnected_exec, Noted_exec; cbn. by rewrite Hh, Ho.
  - rewrite HandleConnectionError_exec, Noted_exec; cbn [self output StoppedSession].
    rewrite ConnectionNotifications_app, Ho. done.
  - rewrite HandleClosed_exec, Noted_exec; cbn. by rewrite Ho.
Qed.

End FurtherProperties.

(** * The further properties on the reference engine *)

Section MoreOnReference.
Import Reference.
Local Open Scope Z_scope.

Lemma StartConnection_routes_signals_witness :
  let w' := exec (StartConnection UEmotionReceiver "") (NewObject UEmotionReceiver 1%nat) in
  exec (Fire UEmotionReceiver 0%nat (SigMessage MessageJoyAngerLabel)) w' =
    exec (HandleMessage MessageJoyAngerLabel) w' ∧
  exec (Fire UEmotionReceiver 0%nat (SigRawMessage (Some Stars) 3 0)) w' = w'.
Proof.
  intros w'.
  destruct (@StartConnection_routes_signals Engine UEmotionReceiver ""
              (NewObject UEmotionReceiver 1%nat)) as (h & Hh & Hfire);
    [discriminate|].
  fold w' in Hh, Hfire.
  assert (h = 0%nat) as -> by (vm_compute in Hh; congruence).
  split.
  - rewrite Hfire. reflexivity.
  - rewrite Hfire. reflexivity.
Defined.

Lemma sockets_requests_in_order_witness :
  let sts := [CallStartConnection ""; Signals 0%nat SigConnected; CallStopConnection] in
  let w := exec (Run UAudioReceiver sts) (NewObject UAudioReceiver 1%nat) in
  (ws_Requests <$> sockets w !! 0%nat) = Some [Connect; Close 1000 "AudioReceiver Stop"] ∧
  (ws_Url <$> sockets w !! 0%nat) ≠ Some ""%string.
Proof.
  intros sts w.
  destruct (sockets w !! 0%nat) as [s|] eqn:Hs; [|vm_compute in Hs; discriminate].
  destruct (@sockets_requests_in_order Engine UAudioReceiver 1%nat sts 0%nat s Hs)
    as (Hu & Hr & _).
  split.
  - vm_compute in Hs. injection Hs as <-. reflexivity.
  - cbn. congruence.
Defined.

Lemma held_socket_bound_witness :
  let w := ConnectedWorld UEmotionReceiver in
  WebSocket (self w) = Some 0%nat ∧
  ∃ s, sockets w !! 0%nat = Some s ∧
       ws_Bindings s =
         [{| bound_delegate := OnConnected; bound_object := 1%nat;
             bound_fn := FnHandleConnected |};
          {| bound_delegate := OnConnectionError; bound_object := 1%nat;
             bound_fn := FnHandleConnectionError |};
          {| bound_delegate := OnClosed; bound_object := 1%nat;
             bound_fn := FnHandleClosed |};
          {| bound_delegate := OnMessage; bound_object := 1%nat;
             bound_fn := FnHandleMessage |}] ∧
       length (ws_Bindings s) = 4%nat.
Proof.
  intros w. split; [reflexivity|].
  apply (@held_socket_bound Engine UEmotionReceiver 1%nat
           [CallStartConnection ""; Signals 0%nat SigConnected] 0%nat).
  reflexivity.
Defined.

Lemma connected_flag_follows_notification_witness :
  let w := NewObject UAudioReceiver 1%nat in
  let sts := [CallStartConnection ""; Signals 0%nat SigConnected;
              Signals 0%nat (SigRawMessage (Some Stars) 2 0)] in
  FlagNotified w ∧
  bIsConnected (self (exec (Run UAudioReceiver sts) w)) = true ∧
  last (ConnectionNotifications (output (exec (Run UAudioReceiver sts) w))) = Some true.
Proof.
  intros w sts.
  assert (H0 : FlagNotified w) by (intros H; discriminate H).
  split_and!; [exact H0|reflexivity|].
  apply (@connected_flag_follows_notification Engine UAudioReceiver sts w H0).
  reflexivity.
Defined.

Lemma StartConnection_after_StopConnection_witness :
  let w := ConnectedWorld UAudioReceiver in
  TargetUrl "" (self w) ≠ ""%string ∧
  exec (StartConnection UAudioReceiver "") (exec (StopConnection UAudioReceiver) w) =
  exec (StartConnection UAudioReceiver "") w.
Proof.
  intros w. split; [discriminate|].
  apply (@StartConnection_after_StopConnection Engine). discriminate.
Defined.

Lemma StopConnection_while_connecting_witness :
  let w := NewObject UAudioReceiver 1%nat in
  let w2 := exec (StopConnection UAudioReceiver)
              (exec (StartConnection UAudioReceiver "") w) in
  TargetUrl "" (self w) ≠ ""%string ∧
  ∃ h, sockets w !! h = None ∧
       sockets w2 !! h =
         Some {| ws_Url := DefaultAudioUrl; ws_Bindings := [];
                 ws_IsConnected := false; ws_Requests := [Connect] |}.
Proof.
  intros w w2. split; [discriminate|].
  destruct (@StopConnection_while_connecting Engine UAudioReceiver "" w)
    as (h & Hn & Hs & _); [discriminate|].
  exists h. split; [exact Hn|exact Hs].
Defined.

Lemma fragments_forwarded_in_order_witness :
  let w := NewObject UAudioReceiver 1%nat in
  Forall (λ n, 0 < n ≤ 2 ^ 31 - 1) [2; 1] ∧
  ∃ chunks,
    ChunkNotifications (output (exec (Forward (Fragments TwoThenOne [2; 1])) w)) =
      ChunkNotifications (output w) ++ chunks ∧
    Z.of_nat ∘ length <$> chunks = [2; 1] ∧
    concat chunks = InputBytes TwoThenOne (foldr Z.add 0 [2; 1]).
Proof.
  intros w.
  assert (H : Forall (λ n, 0 < n ≤ 2 ^ 31 - 1) [2; 1]) by (repeat constructor; lia).
  split; [exact H|].
  apply (@fragments_forwarded_in_order Engine TwoThenOne [2; 1] w H).
Defined.

Lemma payload_signals_leave_session_witness :
  let w := ConnectedWorld UEmotionReceiver in
  let w' := exec (Fire UEmotionReceiver 0%nat (SigMessage MessageNotJson)) w in
  self w' = self w ∧ sockets w' = sockets w ∧
  ConnectionNotifications (output w') = ConnectionNotifications (output w).
Proof.
  intros w w'.
  apply (@payload_signals_leave_session Engine UEmotionReceiver 0%nat
           (SigMessage MessageNotJson) w).
  reflexivity.
Defined.

Lemma TryParseEmotionMessage_out_witness :
  let stale : gmap string Q := {[ "fear"%string := (1 # 2)%Q ]} in
  let joy_anger_label :=
    [("joy"%string, Some (Number (8 # 10))); ("anger"%string, Some (String_ "0.1"));
     ("label"%string, Some (String_ "happy"))] in
  (Deserialize MessageNotJson).1 = false ∧
  TryParseEmotionMessage MessageNotJson stale = (false, stale) ∧
  Deserialize MessageLabel = (true, Some [("label"%string, Some (String_ "happy"))]) ∧
  TryParseEmotionMessage MessageLabel stale = (false, ∅) ∧
  Deserialize MessageJoyAngerLabel = (true, Some joy_anger_label) ∧
  (TryParseEmotionMessage MessageJoyAngerLabel stale).1 = true ∧
  (TryParseEmotionMessage MessageJoyAngerLabel stale).2 ≠ ∅ ∧
  TryParseEmotionMessage MessageJoyAngerLabel ∅ =
    TryParseEmotionMessage MessageJoyAngerLabel stale ∧
  (size (TryParseEmotionMessage MessageJoyAngerLabel stale).2 ≤ 3)%nat.
Proof.
  intros stale joy_anger_label.
  destruct (@TryParseEmotionMessage_out Engine MessageNotJson stale) as (Hnot & _).
  destruct (@TryParseEmotionMessage_out Engine MessageLabel stale) as (_ & Hlabel).
  destruct (@TryParseEmotionMessage_out Engine MessageJoyAngerLabel stale) as (_ & Hjoy).
  destruct (Hlabel [("label"%string, Some (String_ "happy"))] eq_refl)
    as (_ & Hempty & _).
  destruct (Hjoy joy_anger_label eq_refl) as (Hne & _ & Hind & _ & Hsize).
  split_and!; [reflexivity|apply Hnot; by left|reflexivity| |reflexivity|reflexivity
              |by apply Hne|apply Hind|exact Hsize].
  rewrite <- (Hempty eq_refl). reflexivity.
Defined.

Lemma override_address_not_kept_witness :
  let w := NewObject UAudioReceiver 1%nat in
  let w2 := exec (Run UAudioReceiver
                    [CallStartConnection "ws://example/ws/audio"; CallStartConnection ""]) w in
  WebSocketUrl (self w) ≠ ""%string ∧
  ∃ h s, WebSocket (self w2) = Some h ∧ sockets w2 !! h = Some s ∧
         ws_Url s = DefaultAudioUrl.
Proof.
  intros w w2. split; [discriminate|].
  destruct (@override_address_not_kept Engine UAudioReceiver []
              "ws://example/ws/audio" w) as [_ H].
  apply H. discriminate.
Defined.

Lemma callbacks_leave_socket_bound_witness :
  let w := ConnectedWorld UAudioReceiver in
  let s := {| ws_Url := DefaultAudioUrl;
              ws_Bindings := ws_Bindings (StartedSocket UAudioReceiver 1%nat "");
              ws_IsConnected := true; ws_Requests := [Connect] |} in
  let cb := CbConnectionError "reset by peer" in
  sockets w !! 0%nat = Some s ∧
  CallbackValue cb = false ∧
  sockets (exec (StartConnection UAudioReceiver "")
             (exec (RunCallback UAudioReceiver cb) w)) !! 0%nat = Some s.
Proof.
  intros w s cb. split_and!; [reflexivity..|].
  destruct (@callbacks_leave_socket_bound Engine UAudioReceiver cb "" w 0%nat s eq_refl)
    as [_ H].
  apply (H eq_refl).
Defined.

Lemma StartConnection_then_signals_witness :
  let w := NewObject UAudioReceiver 1%nat in
  let w' := exec (StartConnection UAudioReceiver "") w in
  TargetUrl "" (self w) ≠ ""%string ∧
  ∃ h, WebSocket (self w') = Some h ∧
       eval IsConnected (exec (Fire UAudioReceiver h SigConnected) w') = true ∧
       output (exec (Fire UAudioReceiver h SigConnected) w') =
         [OnConnectionStateChanged true].
Proof.
  intros w w'. split; [discriminate|].
  destruct (@StartConnection_then_signals Engine UAudioReceiver "" w)
    as (h & Hh & (Hc & _ & Ho) & _); [discriminate|].
  exists h. split_and!; [exact Hh|exact Hc|exact Ho].
Defined.

End MoreOnReference.
